(** * Common-source to common-gate S-parameter conversion

    A shallow embedding of [CS_To_CG_S_Params.py]: the file parser
    [parseSparamFile], the per-frequency transform [calcCommGateParam]
    and the driver [process_file].

    The arithmetic of the transform is written once, over an interface of
    the operations the Python text uses on numpy's [complex128] scalars
    ([+], [-], [*], [/], unary minus and the promotion of integer
    literals).  The interface has two instances:

    - [C], the complex numbers over Stdlib's reals, with [np.exp],
      [np.abs] and [np.angle] as the real functions they compute; the
      algebraic laws of the conversions and the row map are proved here
      (rounding and signed zeros are abstracted away);
    - [Complex128.c128], pairs of binary64 floats with numpy's
      componentwise addition, textbook product and scaled quotient, and
      with the first and the last stage on doubles; the behaviour at a
      zero determinant (infinities and NaN), the sign of a zero
      imaginary part and the range of the reported magnitudes and phases
      live here. *)

From Stdlib Require Floats.
From Stdlib Require Import Reals Lra Field ZArith String Ascii.
From stdpp Require Import base option list.

Set Default Proof Using "Type".

(* ===================================================================== *)
(** * Complex scalar operations used by the transform *)

Declare Scope num_scope.
Delimit Scope num_scope with num.

Class NumOps (C : Type) : Type := {
  nadd : C -> C -> C;
  nsub : C -> C -> C;
  nmul : C -> C -> C;
  ndiv : C -> C -> C;
  nneg : C -> C;
  (** promotion of a Python [int] literal that meets a complex scalar *)
  of_int : Z -> C
}.

Infix "+" := nadd : num_scope.
Infix "-" := nsub : num_scope.
Infix "*" := nmul : num_scope.
Infix "/" := ndiv : num_scope.
Notation "- x" := (nneg x) : num_scope.

(** Four complex numbers: the 2x2 matrix of a two-port in one parameter
    domain (S, Y or Z). *)
Record TwoPort (C : Type) : Type := mkTwoPort {
  p11 : C; p12 : C; p21 : C; p22 : C
}.
Arguments mkTwoPort {C} _ _ _ _.
Arguments p11 {C} _.
Arguments p12 {C} _.
Arguments p21 {C} _.
Arguments p22 {C} _.

Section Converters.
Context {C : Type} `{NumOps C}.
Local Open Scope num_scope.

(** Lines 56-60: scattering to admittance (common source). *)
Definition del6 (s : TwoPort C) : C :=
  (of_int 1 + p11 s) * (of_int 1 + p22 s) - p12 s * p21 s.

Definition s_to_y (s : TwoPort C) : TwoPort C :=
  let s11s := p11 s in let s12s := p12 s in
  let s21s := p21 s in let s22s := p22 s in
  let del6 := (of_int 1 + s11s) * (of_int 1 + s22s) - s12s * s21s in
  let y11s := ((of_int 1 - s11s) * (of_int 1 + s22s) + s12s * s21s) / del6 in
  let y12s := of_int (-2) * s12s / del6 in
  let y21s := of_int (-2) * s21s / del6 in
  let y22s := ((of_int 1 + s11s) * (of_int 1 - s22s) + s12s * s21s) / del6 in
  mkTwoPort y11s y12s y21s y22s.

(** Lines 62-65: common-source to common-gate admittances. *)
Definition cs_to_cg (y : TwoPort C) : TwoPort C :=
  let y11s := p11 y in let y12s := p12 y in
  let y21s := p21 y in let y22s := p22 y in
  let y11g := y11s + y12s + y21s + y22s in
  let y12g := - (y12s + y22s) in
  let y21g := - (y21s + y22s) in
  let y22g := y22s in
  mkTwoPort y11g y12g y21g y22g.

(** Lines 67-71: admittance to scattering (common gate). *)
Definition del2 (y : TwoPort C) : C :=
  (of_int 1 + p11 y) * (of_int 1 + p22 y) - p12 y * p21 y.

Definition y_to_s (y : TwoPort C) : TwoPort C :=
  let y11g := p11 y in let y12g := p12 y in
  let y21g := p21 y in let y22g := p22 y in
  let del2 := (of_int 1 + y11g) * (of_int 1 + y22g) - y12g * y21g in
  let s11 := ((of_int 1 - y11g) * (of_int 1 + y22g) + y12g * y21g) / del2 in
  let s12 := of_int (-2) * y12g / del2 in
  let s21 := of_int (-2) * y21g / del2 in
  let s22 := ((of_int 1 + y11g) * (of_int 1 - y22g) + y12g * y21g) / del2 in
  mkTwoPort s11 s12 s21 s22.

(** Lines 73-77: scattering to impedance, in ohms. *)
Definition del5 (s : TwoPort C) : C :=
  (of_int 1 - p11 s) * (of_int 1 - p22 s) - p12 s * p21 s.

Definition s_to_z (Z0 : C) (s : TwoPort C) : TwoPort C :=
  let s11 := p11 s in let s12 := p12 s in
  let s21 := p21 s in let s22 := p22 s in
  let del5 := (of_int 1 - s11) * (of_int 1 - s22) - s12 * s21 in
  let Z11 := Z0 * ((of_int 1 + s11) * (of_int 1 - s22) + s12 * s21) / del5 in
  let Z12 := Z0 * (of_int 2 * s12) / del5 in
  let Z21 := Z0 * (of_int 2 * s21) / del5 in
  let Z22 := Z0 * ((of_int 1 + s22) * (of_int 1 - s11) + s12 * s21) / del5 in
  mkTwoPort Z11 Z12 Z21 Z22.

(** Lines 80-83: the series inductor, added to every entry. *)
Definition add_series (Zind : C) (z : TwoPort C) : TwoPort C :=
  mkTwoPort (p11 z + Zind) (p12 z + Zind) (p21 z + Zind) (p22 z + Zind).

(** Lines 85-88: normalisation by the reference impedance. *)
Definition normalize (Z0 : C) (z : TwoPort C) : TwoPort C :=
  mkTwoPort (p11 z / Z0) (p12 z / Z0) (p21 z / Z0) (p22 z / Z0).

(** Lines 90-94: normalised impedance to scattering. *)
Definition del4 (z : TwoPort C) : C :=
  (p11 z + of_int 1) * (p22 z + of_int 1) - p12 z * p21 z.

Definition z_to_s (z : TwoPort C) : TwoPort C :=
  let z11o := p11 z in let z12o := p12 z in
  let z21o := p21 z in let z22o := p22 z in
  let del4 := (z11o + of_int 1) * (z22o + of_int 1) - z12o * z21o in
  let s11i := ((z11o - of_int 1) * (z22o + of_int 1) - z12o * z21o) / del4 in
  let s12i := of_int 2 * z12o / del4 in
  let s21i := of_int 2 * z21o / del4 in
  let s22i := ((z11o + of_int 1) * (z22o - of_int 1) - z12o * z21o) / del4 in
  mkTwoPort s11i s12i s21i s22i.

(** Stages 2 to 4: lines 56-71. *)
Definition cs_to_cg_scattering (s : TwoPort C) : TwoPort C :=
  y_to_s (cs_to_cg (s_to_y s)).

(** The Scattering->Admittance formulas as the specification words
    them, with one shared determinant [Δ]. *)
Definition spec_s_to_y (s : TwoPort C) : TwoPort C :=
  let Δ := (of_int 1 + p11 s) * (of_int 1 + p22 s) - p12 s * p21 s in
  {| p11 := ((of_int 1 - p11 s) * (of_int 1 + p22 s) + p12 s * p21 s) / Δ;
     p12 := of_int (-2) * p12 s / Δ;
     p21 := of_int (-2) * p21 s / Δ;
     p22 := ((of_int 1 + p11 s) * (of_int 1 - p22 s) + p12 s * p21 s) / Δ |}.
End Converters.

(* ===================================================================== *)
(** * Exact instance: complex numbers over the reals *)

Record C : Type := mkC { Re : R; Im : R }.

Section ExactComplex.
Local Open Scope R_scope.

Definition RtoC (x : R) : C := mkC x 0.
Definition Ci : C := mkC 0 1.
Definition Cadd (a b : C) : C := mkC (Re a + Re b) (Im a + Im b).
Definition Csub (a b : C) : C := mkC (Re a - Re b) (Im a - Im b).
Definition Copp (a : C) : C := mkC (- Re a) (- Im a).
Definition Cmul (a b : C) : C :=
  mkC (Re a * Re b - Im a * Im b) (Re a * Im b + Im a * Re b).
Definition Cnorm2 (a : C) : R := Re a * Re a + Im a * Im a.
Definition Cinv (a : C) : C := mkC (Re a / Cnorm2 a) (- Im a / Cnorm2 a).
Definition Cdiv (a b : C) : C := Cmul a (Cinv b).

(** [np.exp] on a complex argument. *)
Definition Cexp (z : C) : C :=
  mkC (exp (Re z) * cos (Im z)) (exp (Re z) * sin (Im z)).

(** [np.abs] on a complex argument. *)
Definition Cabs (z : C) : R := sqrt (Re z * Re z + Im z * Im z).

(** [np.arctan2 y x] on exact reals.  The reals have one zero: at
    [y = 0] and [x < 0] the value is [PI], and the [-pi] that numpy
    returns there for [y = -0.0] has no counterpart; the doubles, with
    both zeros, are in [Complex128.arctan2]. *)
Definition atan2 (y x : R) : R :=
  if Rlt_dec 0 x then atan (y / x)
  else if Rlt_dec x 0 then
    (if Rle_dec 0 y then atan (y / x) + PI else atan (y / x) - PI)
  else if Rlt_dec 0 y then PI / 2
  else if Rlt_dec y 0 then - (PI / 2)
  else 0.

(** [np.angle z deg=True] on exact reals: the angle is scaled by
    [180/pi]. *)
Definition Cangle_deg (z : C) : R := atan2 (Im z) (Re z) * (180 / PI).
End ExactComplex.

#[export] Instance C_ops : NumOps C := {|
  nadd := Cadd; nsub := Csub; nmul := Cmul; ndiv := Cdiv; nneg := Copp;
  of_int n := RtoC (IZR n)
|}.

(* ===================================================================== *)
(** * Two-dimensional arrays

    An [ndarray] of shape (n, col) is a list of rows.  [None] stands for
    the [IndexError] numpy raises on an index that is out of range. *)

Section Array2.
Context {A : Type}.

(** [a[i, k]] *)
Definition get2 (a : list (list A)) (i k : nat) : option A :=
  row ← a !! i; row !! k.

(** [a[i, k] = v] *)
Definition set2 (a : list (list A)) (i k : nat) (v : A)
  : option (list (list A)) :=
  row ← a !! i;
  if decide (k < length row)%nat then Some (<[i := <[k := v]> row]> a)
  else None.

(** [for i in idx: s = body(i, s)], stopping at the first exception. *)
Fixpoint for_each {S : Type} (body : nat -> S -> option S)
    (idx : list nat) (s : S) : option S :=
  match idx with
  | [] => Some s
  | i :: idx' => s' ← body i s; for_each body idx' s'
  end.
End Array2.

(** [np.zeros((n, col))] *)
Definition np_zeros (n col : nat) : list (list R) :=
  replicate n (replicate col 0%R).

(* ===================================================================== *)
(** * [calcCommGateParam] *)

Section CalcCommGateParam.
Local Open Scope num_scope.

(** Lines 51-54, one parameter: magnitude and degrees to rectangular,
    [mag * np.exp(1j * deg * np.pi / 180)]. *)
Definition polar (mag deg : R) : C :=
  RtoC mag * Cexp (Ci * RtoC deg * RtoC PI / of_int 180).

(** Line 79: the impedance of the series inductor,
    [1j * 2 * np.pi * f * M * L]. *)
Definition Zind (f M L : R) : C :=
  Ci * of_int 2 * RtoC PI * RtoC f * RtoC M * RtoC L.

Variables (Z0 M L : R).

(** Lines 51-104, the body of the loop for index [i]; [s] is the output
    array as the iteration finds it.  Each block of the body is the
    converter of [Section Converters] with the same lines. *)
Definition loop_body (data : list (list R)) (i : nat) (s : list (list R))
  : option (list (list R)) :=
  d1 ← get2 data i 1; d2 ← get2 data i 2;
  let s11s := polar d1 d2 in
  d3 ← get2 data i 3; d4 ← get2 data i 4;
  let s21s := polar d3 d4 in
  d5 ← get2 data i 5; d6 ← get2 data i 6;
  let s12s := polar d5 d6 in
  d7 ← get2 data i 7; d8 ← get2 data i 8;
  let s22s := polar d7 d8 in
  (* 56-60 *)
  let ys := s_to_y (mkTwoPort s11s s12s s21s s22s) in
  (* 62-65 *)
  let yg := cs_to_cg ys in
  (* 67-71 *)
  let sg := y_to_s yg in
  (* 73-77 *)
  let Z := s_to_z (RtoC Z0) sg in
  (* 79-83 *)
  d0 ← get2 data i 0;
  let Zo := add_series (Zind d0 M L) Z in
  (* 85-88 *)
  let zo := normalize (RtoC Z0) Zo in
  (* 90-94 *)
  let si := z_to_s zo in
  (* 96-104 *)
  f ← get2 data i 0;
  s ← set2 s i 0 f;
  s ← set2 s i 1 (Cabs (p11 si));
  s ← set2 s i 2 (Cangle_deg (p11 si));
  s ← set2 s i 3 (Cabs (p21 si));
  s ← set2 s i 4 (Cangle_deg (p21 si));
  s ← set2 s i 5 (Cabs (p12 si));
  s ← set2 s i 6 (Cangle_deg (p12 si));
  s ← set2 s i 7 (Cabs (p22 si));
  s ← set2 s i 8 (Cangle_deg (p22 si));
  Some s.

Definition calcCommGateParam (col : nat) (data : list (list R))
  : option (list (list R)) :=
  let s := np_zeros (length data) col in
  let len_data := length data in
  for_each (loop_body data) (seq 0 len_data) s.
End CalcCommGateParam.

(* ===================================================================== *)
(** * One frequency point as a function of its record *)

(** One measured row: the frequency and four (magnitude, degrees) pairs,
    in the column order of the file: S11, S21, S12, S22. *)
Record FrequencyRecord : Type := mkRecord {
  frequency : R;
  S11 : R * R; S21 : R * R; S12 : R * R; S22 : R * R
}.

Definition record_of_row (row : list R) : option FrequencyRecord :=
  match row with
  | f :: m11 :: a11 :: m21 :: a21 :: m12 :: a12 :: m22 :: a22 :: _ =>
      Some (mkRecord f (m11, a11) (m21, a21) (m12, a12) (m22, a22))
  | _ => None
  end.

Section Stages.
(** Stage 1. *)
Definition to_rect (r : FrequencyRecord) : TwoPort C :=
  mkTwoPort (polar (S11 r).1 (S11 r).2) (polar (S12 r).1 (S12 r).2)
            (polar (S21 r).1 (S21 r).2) (polar (S22 r).1 (S22 r).2).

(** The impedance matrix before and after the inductor is added. *)
Definition cg_impedance (Z0 : R) (r : FrequencyRecord) : TwoPort C :=
  s_to_z (RtoC Z0) (cs_to_cg_scattering (to_rect r)).

Definition cg_impedance_degenerated (Z0 M L : R) (r : FrequencyRecord)
  : TwoPort C :=
  add_series (Zind (frequency r) M L) (cg_impedance Z0 r).

(** Stages 2 to 5. *)
Definition pipeline (Z0 M L : R) (r : FrequencyRecord) : TwoPort C :=
  z_to_s (normalize (RtoC Z0) (cg_impedance_degenerated Z0 M L r)).

(** Stage 6: the output row, in the column order S11, S21, S12, S22. *)
Definition to_polar_row (f : R) (s : TwoPort C) : list R :=
  [ f; Cabs (p11 s); Cangle_deg (p11 s); Cabs (p21 s); Cangle_deg (p21 s);
    Cabs (p12 s); Cangle_deg (p12 s); Cabs (p22 s); Cangle_deg (p22 s) ].

Definition calc_record (Z0 M L : R) (r : FrequencyRecord) : list R :=
  to_polar_row (frequency r) (pipeline Z0 M L r).

(** What the loop makes of one input row; [None] when the row has fewer
    than nine columns. *)
Definition calc_row (Z0 M L : R) (row : list R) : option (list R) :=
  calc_record Z0 M L <$> record_of_row row.

(** The chain without stage 5. *)
Definition short_chain (r : FrequencyRecord) : list R :=
  to_polar_row (frequency r) (cs_to_cg_scattering (to_rect r)).

(** Rows picked by index, in the order of [idx]. *)
Definition select {A : Type} (idx : list nat) (l : list A) : list A :=
  omap (fun i => l !! i) idx.
End Stages.

(* ===================================================================== *)
(** * [parseSparamFile]

    The file is the list of its lines, as the iteration [for line in f]
    yields them.  [float] is Python's conversion of a token to a number;
    [None] stands for its [ValueError]. *)

(** Characters with [str.isspace], among the code points below 256. *)
Definition isspace (c : ascii) : bool :=
  let n := nat_of_ascii c in
  ((9 <=? n) && (n <=? 13) || (28 <=? n) && (n <=? 32)
   || (n =? 133) || (n =? 160))%nat.

(** [line.startswith(c)] for a one-character prefix. *)
Definition startswith (c : ascii) (line : string) : bool :=
  match line with
  | String c' _ => Ascii.eqb c' c
  | EmptyString => false
  end.

(** [line.split()]: the maximal runs of non-space characters.  [cur] is
    the run being read. *)
Fixpoint split_from (cur : string) (line : string) : list string :=
  match line with
  | EmptyString => if String.eqb cur "" then [] else [cur]
  | String c rest =>
      if isspace c then
        (if String.eqb cur "" then split_from "" rest
         else cur :: split_from "" rest)
      else split_from (cur ++ String c "") rest
  end.

Definition split (line : string) : list string := split_from "" line.

Section Parser.
Context {A : Type} (float : string -> option A).

(** One turn of the loop over the lines (lines 32-43). *)
Definition parse_step (col : nat) (data : list (list A)) (line : string)
  : list (list A) :=
  if startswith "!" line || startswith "#" line then data
  else
    match mapM float (split line) with
    | Some parsed_line =>
        if decide (length parsed_line = col) then data ++ [parsed_line]
        else data
    | None => data
    end.

Definition parseSparamFile (col : nat) (lines : list string)
  : list (list A) :=
  foldl (parse_step col) [] lines.

(** A line passes with the numbers [fields]: it is no comment line, its
    tokens all convert, to [fields], and there are [col] of them. *)
Definition passes (col : nat) (line : string) (fields : list A) : Prop :=
  startswith "!" line = false /\ startswith "#" line = false /\
  Forall2 (fun tok v => float tok = Some v) (split line) fields /\
  length fields = col.

(** [Kept col lines rows]: [rows] are the fields of the lines that pass,
    in order; every other line leaves nothing. *)
Inductive Kept (col : nat) : list string -> list (list A) -> Prop :=
| Kept_nil : Kept col [] []
| Kept_pass line fields lines rows :
    passes col line fields -> Kept col lines rows ->
    Kept col (line :: lines) (fields :: rows)
| Kept_drop line lines rows :
    (forall fields, ~ passes col line fields) -> Kept col lines rows ->
    Kept col (line :: lines) rows.
End Parser.

(** A fragment of what Python's [float] accepts, to run the parser on
    concrete files: an optional sign and one or more decimal digits. *)
Definition digit_of (c : ascii) : option Z :=
  let n := Z.of_nat (nat_of_ascii c) in
  if ((48 <=? n) && (n <=? 57))%Z then Some (n - 48)%Z else None.

Fixpoint digits (acc : Z) (s : string) : option Z :=
  match s with
  | EmptyString => Some acc
  | String c r => d ← digit_of c; digits (10 * acc + d) r
  end.

Definition int_float (tok : string) : option R :=
  match tok with
  | EmptyString => None
  | String "-" (String c r) => (fun n => IZR (- n)) <$> digits 0 (String c r)
  | String "+" (String c r) => IZR <$> digits 0 (String c r)
  | _ => IZR <$> digits 0 tok
  end.

(* ===================================================================== *)
(** * [process_file]

    [Some rows]: the rows handed to [np.savetxt] when no exception was
    raised; [None]: the [except] branch. *)

Definition process_file (float : string -> option R)
    (input_file : list string) (inductance : R) : option (list (list R)) :=
  let Z0 := 50%R in
  let col := 9%nat in
  let M := 1e6%R in
  let L := (inductance * 1e-9)%R in
  let spdat := parseSparamFile float col input_file in
  calcCommGateParam Z0 M L col spdat.

(* ===================================================================== *)
(** * Specification-side definitions and sample inputs *)

(** A common-source admittance matrix with four distinct, non-real
    entries. *)
Definition y_sample : TwoPort C :=
  mkTwoPort (mkC 1 2) (mkC 3 (-1)) (mkC 0 4) (mkC 2 5).


(** The injection as the specification words it: one impedance
    [Z_ind = j 2 pi f M L_henries], with [M = 1e6] and
    [L_henries = inductance_nH * 1e-9], added to each of the four entries. *)
Definition spec_injection (f inductance_nH : R) (Z : TwoPort C) : TwoPort C :=
  let M := 1e6%R in
  let L_henries := (inductance_nH * 1e-9)%R in
  let Z_ind := mkC 0 (2 * PI * f * M * L_henries) in
  {| p11 := Cadd (p11 Z) Z_ind; p12 := Cadd (p12 Z) Z_ind;
     p21 := Cadd (p21 Z) Z_ind; p22 := Cadd (p22 Z) Z_ind |}.

(** The output row of one record, with the injection of the
    specification between Scattering->Impedance and the normalisation. *)
Definition spec_injected_row (inductance_nH : R) (row : list R)
  : option (list R) :=
  r ← record_of_row row;
  Some (to_polar_row (frequency r)
          (z_to_s (normalize (RtoC 50)
             (spec_injection (frequency r) inductance_nH
                (cg_impedance 50 r))))).


(** A file with two comment lines and one data row: 1 GHz, all four
    magnitudes and phases zero. *)
Definition matched_file : list string :=
  [ "! common source"; "# HZ S MA R 50";
    "1000000000 0 0 0 0 0 0 0 0" ]%string.


(** Comment lines, a line of words, a row of three numbers and an empty
    line. *)
Definition header_only_file : list string :=
  [ "! Common source S-parameters"; "# GHZ S MA R 50";
    "freq magS11 angS11"; "1 2 3"; "" ]%string.

(* ===================================================================== *)
(** * Notions used to state further properties of the transform *)

(** The two-port with its ports exchanged: S12 and S21 swap places. *)
Definition transpose {T : Type} (s : TwoPort T) : TwoPort T :=
  mkTwoPort (p11 s) (p21 s) (p12 s) (p22 s).

(** A row of the file with the S21 columns (3, 4) and the S12 columns
    (5, 6) exchanged. *)
Definition swap_transmission (row : list R) : list R :=
  match row with
  | f :: m11 :: a11 :: m21 :: a21 :: m12 :: a12 :: rest =>
      f :: m11 :: a11 :: m12 :: a12 :: m21 :: a21 :: rest
  | _ => row
  end.



(** The record of the data row of [matched_file]. *)
Definition matched_record : FrequencyRecord :=
  mkRecord 1000000000 (0, 0)%R (0, 0)%R (0, 0)%R (0, 0)%R.


(** The nine columns of a record, in the order of the file. *)
Definition row_of_record (r : FrequencyRecord) : list R :=
  [ frequency r; (S11 r).1; (S11 r).2; (S21 r).1; (S21 r).2;
    (S12 r).1; (S12 r).2; (S22 r).1; (S22 r).2 ].

(** Every character of [ws] is a space character. *)
Fixpoint all_space (ws : string) : bool :=
  match ws with
  | EmptyString => true
  | String c rest => isspace c && all_space rest
  end.

(* ===================================================================== *)
(** * The front end

    [process_file] with its file access and its dialogs, [select_file]
    and [process_button_click].  A call is described by what it leaves
    behind, in order: the dialogs of [messagebox] and the array handed to
    [np.savetxt]. *)

Inductive event : Type :=
| ShowError (title message : string)
| ShowInfo (title message : string)
| SaveTxt (output_file : string) (s : list (list R)).

(** The platform as the program meets it: Python's [float]; the lines of
    a file, or the text of the exception that [open] or the iteration
    over the file raises; the text of the exception, if any, that
    [np.savetxt] raises for a path; the text of numpy's [IndexError]. *)
Record Platform : Type := {
  float_of_str : string -> option R;
  open_lines : string -> string + list string;
  savetxt_error : string -> option string;
  index_error : string
}.

(** The three entry widgets. *)
Record Entries : Type := {
  file_entry : string;
  inductance_entry : string;
  output_entry : string
}.

(** Lines 108-122: [process_file] inside its [try]; every exception ends
    in the error dialog. *)
Definition process_file_dialogs (pf : Platform)
    (input_file : string) (inductance : R) (output_file : string)
  : list event :=
  match open_lines pf input_file with
  | inl e => [ShowError "Error" ("An error occurred: " ++ e)]
  | inr lines =>
      match process_file (float_of_str pf) lines inductance with
      | None => [ShowError "Error" ("An error occurred: " ++ index_error pf)]
      | Some s =>
          match savetxt_error pf output_file with
          | Some e => [ShowError "Error" ("An error occurred: " ++ e)]
          | None =>
              [ SaveTxt output_file s;
                ShowInfo "Success"
                  ("File processed and saved as '" ++ output_file ++ "'") ]
          end
      end
  end%string.

(** Lines 125-129: [file_path] is what the file dialog returns, the empty
    string when it is cancelled. *)
Definition select_file (file_path : string) (w : Entries) : Entries :=
  if String.eqb file_path "" then w
  else {| file_entry := file_path;
          inductance_entry := inductance_entry w;
          output_entry := output_entry w |}.

(** Lines 132-151. *)
Definition process_button_click (pf : Platform) (w : Entries) : list event :=
  let input_file := file_entry w in
  let inductance := inductance_entry w in
  let output_file := output_entry w in
  if String.eqb input_file "" then
    [ShowError "Error" "Please select an input file."]
  else if String.eqb output_file "" then
    [ShowError "Error" "Please enter an output file name."]
  else
    match float_of_str pf inductance with
    | None => [ShowError "Error" "Please enter a valid inductance value."]
    | Some inductance_value =>
        process_file_dialogs pf input_file inductance_value output_file
    end.

Definition is_dialog (e : event) : bool :=
  match e with
  | ShowError _ _ | ShowInfo _ _ => true
  | SaveTxt _ _ => false
  end.

Definition is_save (e : event) : bool :=
  match e with
  | SaveTxt _ _ => true
  | _ => false
  end.

(** A platform with one readable file, [matched_file] under the name
    "cs.s2p", on which every write succeeds. *)
Definition sample_platform : Platform :=
  {| float_of_str := int_float;
     open_lines path :=
       if String.eqb path "cs.s2p" then inr matched_file
       else inl "No such file or directory"%string;
     savetxt_error _ := None;
     index_error := "index out of bounds" |}.

Definition sample_entries : Entries :=
  {| file_entry := ""; inductance_entry := "3"; output_entry := "cg.txt" |}.

(* ===================================================================== *)
(** * Binary64 instance: numpy's [complex128] scalars *)

Module Complex128.
Import Stdlib.Floats.Floats.
Local Open Scope float_scope.

Record c128 : Type := mk { real : float; imag : float }.

Definition add (a b : c128) : c128 :=
  mk (real a + real b) (imag a + imag b).
Definition sub (a b : c128) : c128 :=
  mk (real a - real b) (imag a - imag b).
Definition neg (a : c128) : c128 := mk (- real a) (- imag a).
Definition mul (a b : c128) : c128 :=
  mk (real a * real b - imag a * imag b)
     (real a * imag b + imag a * real b).

(** The quotient of two [complex128] scalars, as numpy's scalar
    arithmetic computes it: scaled by the larger component of the
    divisor; a zero divisor divides each component of the dividend by
    zero. *)
Definition div (a b : c128) : c128 :=
  let in1r := real a in let in1i := imag a in
  let in2r := real b in let in2i := imag b in
  let in2r_abs := abs in2r in
  let in2i_abs := abs in2i in
  if in2i_abs <=? in2r_abs then
    if (in2r_abs =? 0) && (in2i_abs =? 0) then
      mk (in1r / in2r_abs) (in1i / in2r_abs)
    else
      let rat := in2i / in2r in
      let scl := 1 / (in2r + in2i * rat) in
      mk ((in1r + in1i * rat) * scl) ((in1i - in1r * rat) * scl)
  else
    let rat := in2r / in2i in
    let scl := 1 / (in2i + in2r * rat) in
    mk ((in1r * rat + in1i) * scl) ((in1i * rat - in1r) * scl).

(** A Python [int] as a double (exact below 2^53). *)
Definition float_of_Z (n : Z) : float :=
  match n with
  | Z0 => 0
  | Zpos _ => of_uint63 (Uint63.of_Z n)
  | Zneg p => - of_uint63 (Uint63.of_Z (Zpos p))
  end.

Definition of_Z (n : Z) : c128 := mk (float_of_Z n) 0.

(** Infinite or not-a-number. *)
Definition nonfinite (x : float) : bool := is_nan x || is_infinity x.

Definition is_zero_c (z : c128) : bool := is_zero (real z) && is_zero (imag z).

(** Zero or not a number, on the specification side. *)
Definition zero_or_nan (x : spec_float) : bool :=
  match x with
  | S754_zero _ | S754_nan => true
  | _ => false
  end.

(** [a == b] on two [complex128] scalars. *)
Definition ceqb (a b : c128) : bool :=
  (real a =? real b) && (imag a =? imag b).

Definition all_nonfinite (y : TwoPort c128) : bool :=
  nonfinite (real (p11 y)) && nonfinite (imag (p11 y)) &&
  nonfinite (real (p12 y)) && nonfinite (imag (p12 y)) &&
  nonfinite (real (p21 y)) && nonfinite (imag (p21 y)) &&
  nonfinite (real (p22 y)) && nonfinite (imag (p22 y)).

#[export] Instance ops : NumOps c128 := {|
  nadd := add; nsub := sub; nmul := mul; ndiv := div; nneg := neg;
  of_int := of_Z
|}.

(** S11 = -1: the determinant is exactly zero. *)
Definition singular_sample : TwoPort c128 :=
  mkTwoPort (mk (-1) 0) (mk 0 0) (mk 0.5 0.25) (mk 0.25 0).

(** [np.pi] *)
Definition pi : float := 0x1.921fb54442d18p+1.

(** Line 79 on doubles: [1j * 2 * np.pi * f * M * L], each real factor
    promoted to a complex scalar. *)
Definition Zind (f M L : float) : c128 :=
  mul (mul (mul (mul (mul (mk 0 1) (of_Z 2)) (mk pi 0)) (mk f 0)) (mk M 0))
      (mk L 0).

(** Lines 73-94 on doubles, with [Z0 = 50]. *)
Definition stage5 (Zi : c128) (s : TwoPort c128) : TwoPort c128 :=
  z_to_s (normalize (of_Z 50) (add_series Zi (s_to_z (of_Z 50) s))).

(** S11 = 0.5, S21 = 2, S12 = 0.5, S22 = 0.5, all four at 0 degrees. *)
Definition real_axis_sample : TwoPort c128 :=
  mkTwoPort (mk 0.5 0) (mk 0.5 0) (mk 2 0) (mk 0.5 0).

(** The two-port with all four entries negated. *)
Definition neg_ports (s : TwoPort c128) : TwoPort c128 :=
  mkTwoPort (neg (p11 s)) (neg (p12 s)) (neg (p21 s)) (neg (p22 s)).
(** ** The C library and the first and last stage on doubles

    [np.exp], [np.abs] and [np.angle] end in the C library's [cexp],
    [hypot] and [atan2].  The results that Annexes F and G of the C
    standard fix for a zero argument are computed here; everywhere else
    the result is the library's, a parameter of the model. *)
Record Libm : Type := {
  cexp_generic : float -> float -> c128;
  hypot_generic : float -> float -> float;
  atan2_generic : float -> float -> float
}.

(** [np.exp] on a [complex128]: [cexp(+-0 + i0) = 1 + i0], and the
    conjugate for [-i0]. *)
Definition cexp (lm : Libm) (z : c128) : c128 :=
  if is_zero (real z) && is_zero (imag z) then mk 1 (imag z)
  else cexp_generic lm (real z) (imag z).

(** [np.abs] on a [complex128], [hypot(re, im)]: [hypot(x, +-0)] is
    [fabs(x)]. *)
Definition absolute (lm : Libm) (z : c128) : float :=
  if is_zero (imag z) then abs (real z)
  else if is_zero (real z) then abs (imag z)
  else hypot_generic lm (real z) (imag z).

(** [np.arctan2 y x]: for [y = +-0], [+-pi] when [x] is negative or
    [-0], and [+-0] when [x] is positive or [+0]; the sign is that of
    [y]. *)
Definition arctan2 (lm : Libm) (y x : float) : float :=
  if is_zero y && negb (is_nan x) then
    if get_sign x then (if get_sign y then - pi else pi) else y
  else atan2_generic lm y x.

(** [np.angle z deg=True]: [arctan2(z.imag, z.real)], then
    [a *= 180 / pi]. *)
Definition angle (lm : Libm) (z : c128) : float :=
  arctan2 lm (imag z) (real z) * (180 / pi).

(** The quotient of two Python [complex] values, CPython's
    [_Py_c_quot]; [None] is its [ZeroDivisionError]. *)
Definition py_quot (a b : c128) : option c128 :=
  let abs_breal := if real b <? 0 then - real b else real b in
  let abs_bimag := if imag b <? 0 then - imag b else imag b in
  if abs_bimag <=? abs_breal then
    if abs_breal =? 0 then None
    else
      let ratio := imag b / real b in
      let denom := real b + imag b * ratio in
      Some (mk ((real a + imag a * ratio) / denom)
               ((imag a - real a * ratio) / denom))
  else if abs_breal <=? abs_bimag then
    let ratio := real b / imag b in
    let denom := real b * ratio + imag b in
    Some (mk ((real a * ratio + imag a) / denom)
             ((imag a * ratio - real a) / denom))
  else Some (mk nan nan).

(** Lines 51-54, one parameter: [mag * np.exp(1j * deg * np.pi / 180)].
    The argument of [np.exp] is a Python [complex] ([1j] times a double,
    times [np.pi], over the [int] 180, each real operand promoted to a
    complex one); the product with [mag] is numpy's. *)
Definition polar (lm : Libm) (mag deg : float) : option c128 :=
  w ← py_quot (mul (mul (mk 0 1) (mk deg 0)) (mk pi 0)) (of_Z 180);
  Some (mul (mk mag 0) (cexp lm w)).

(** Lines 51-54 for one row of the array. *)
Definition to_rect (lm : Libm) (row : list float)
  : option (float * TwoPort c128) :=
  match row with
  | f :: m11 :: a11 :: m21 :: a21 :: m12 :: a12 :: m22 :: a22 :: _ =>
      s11s ← polar lm m11 a11; s21s ← polar lm m21 a21;
      s12s ← polar lm m12 a12; s22s ← polar lm m22 a22;
      Some (f, mkTwoPort s11s s12s s21s s22s)
  | _ => None
  end.

(** Lines 96-104. *)
Definition to_polar_row (lm : Libm) (f : float) (s : TwoPort c128)
  : list float :=
  [ f; absolute lm (p11 s); angle lm (p11 s);
    absolute lm (p21 s); angle lm (p21 s);
    absolute lm (p12 s); angle lm (p12 s);
    absolute lm (p22 s); angle lm (p22 s) ].

(** Lines 51-104 for one row, with [Z0 = 50]. *)
Definition calc_row (lm : Libm) (M L : float) (row : list float)
  : option (list float) :=
  '(f, s) ← to_rect lm row;
  Some (to_polar_row lm f (stage5 (Zind f M L) (cs_to_cg_scattering s))).

(** The same row through lines 51-71 and 96-104 only. *)
Definition short_chain (lm : Libm) (row : list float)
  : option (list float) :=
  '(f, s) ← to_rect lm row;
  Some (to_polar_row lm f (cs_to_cg_scattering s)).

(** Lines 112-113 of [process_file]: [M = 1e6] and
    [L = inductance * 1e-9], the literal being the double nearest to
    1e-9. *)
Definition process_row (lm : Libm) (inductance : float) (row : list float)
  : option (list float) :=
  calc_row lm 1e6 (inductance * 0x1.12e0be826d695p-30) row.

(** A magnitude that is a number is not negative. *)
Definition magnitude_ok (m : float) : bool := is_nan m || (0 <=? m).

(** An angle in radians that is a number lies in [-pi, pi]. *)
Definition radians_ok (a : float) : bool :=
  is_nan a || ((- pi <=? a) && (a <=? pi)).

(** A phase in degrees that is a number lies in [-180, 180]. *)
Definition phase_ok (p : float) : bool :=
  is_nan p || ((-180 <=? p) && (p <=? 180)).

(** The half-open range (-180, 180]. *)
Definition phase_half_open (p : float) : bool := (-180 <? p) && (p <=? 180).

(** What the C standard lets one expect of the library: [hypot] is not
    negative and [atan2] stays within [-pi, pi]. *)
Definition libm_in_range (lm : Libm) : Prop :=
  (forall x y, magnitude_ok (hypot_generic lm x y) = true) /\
  (forall y x, radians_ok (atan2_generic lm y x) = true).

(** An output row: nine columns, the magnitudes and phases in range. *)
Definition output_in_range (row : list float) : Prop :=
  exists f m11 a11 m21 a21 m12 a12 m22 a22 : float,
    row = [f; m11; a11; m21; a21; m12; a12; m22; a22] /\
    (magnitude_ok m11 = true /\ magnitude_ok m21 = true /\
     magnitude_ok m12 = true /\ magnitude_ok m22 = true) /\
    (phase_ok a11 = true /\ phase_ok a21 = true /\
     phase_ok a12 = true /\ phase_ok a22 = true).

(** A library that answers where the C standard fixes the result and
    with NaN elsewhere. *)
Definition annex_libm : Libm :=
  {| cexp_generic _ _ := mk nan nan;
     hypot_generic _ _ := nan;
     atan2_generic _ _ := nan |}.

#[local] Set Warnings "-inexact-float".

(** The row [1e9 0.5 0 2 0 0.5 0 0.5 0]: [real_axis_sample] at 1 GHz. *)
Definition real_axis_row : list float := [1e9; 0.5; 0; 2; 0; 0.5; 0; 0.5; 0].

(** A spec float of sign [sx] that is a zero or, in magnitude, at most
    [m0 * 2^e0]. *)
Definition below (sx : bool) (m0 : positive) (e0 : Z) (r : spec_float)
  : Prop :=
  match r with
  | S754_zero s => s = sx
  | S754_finite s m e =>
      s = sx /\ (e < e0 \/ (e = e0 /\ Z.pos m <= Z.pos m0))%Z
  | _ => False
  end.

(** What the program returns for [real_axis_row] with inductance 0, and
    what lines 51-71 and 96-104 alone return for it. *)
Definition real_axis_output : list float :=
  [ 1e9; 6.999999999999998; -0; 5.999999999999998; -180;
    1.9999999999999996; -0; 1.666666666666667; -180 ].

End Complex128.

(* ===================================================================== *)
(** * The complex numbers form a field *)

Section ExactField.
Local Open Scope R_scope.

Lemma C_eq (a b : C) : Re a = Re b -> Im a = Im b -> a = b.
Proof. destruct a, b; simpl; intros -> ->; reflexivity. Qed.

Lemma Cnorm2_zero (z : C) : Cnorm2 z = 0 -> z = RtoC 0.
Proof.
  destruct z as [x y]; unfold Cnorm2, RtoC; simpl; intros Hn.
  assert (x = 0) by nra. assert (y = 0) by nra. subst; reflexivity.
Qed.

Lemma C_ring : ring_theory (RtoC 0) (RtoC 1) Cadd Cmul Csub Copp eq.
Proof.
  split; intros; apply C_eq; simpl; ring.
Qed.

Lemma C_field :
  field_theory (RtoC 0) (RtoC 1) Cadd Cmul Csub Copp Cdiv Cinv eq.
Proof.
  split.
  - exact C_ring.
  - intros Heq. apply (f_equal Re) in Heq. simpl in Heq. lra.
  - reflexivity.
  - intros z Hz. apply C_eq; simpl.
    + assert (Cnorm2 z <> 0) by (intros Hn; apply Hz, Cnorm2_zero, Hn).
      unfold Cnorm2 in *. field. assumption.
    + assert (Cnorm2 z <> 0) by (intros Hn; apply Hz, Cnorm2_zero, Hn).
      unfold Cnorm2 in *. field. assumption.
Qed.
End ExactField.

Add Field Cfield : C_field.

Lemma RtoC_2 : RtoC 2 = Cadd (RtoC 1) (RtoC 1).
Proof. apply C_eq; simpl; ring. Qed.

Lemma RtoC_m2 : RtoC (-2) = Copp (Cadd (RtoC 1) (RtoC 1)).
Proof. apply C_eq; simpl; ring. Qed.

Lemma RtoC_4 : RtoC 4 = Cadd (Cadd (RtoC 1) (RtoC 1)) (Cadd (RtoC 1) (RtoC 1)).
Proof. apply C_eq; simpl; ring. Qed.

(** Unfold the interface at [C] and write the literals with [RtoC 1]. *)
Ltac cnorm :=
  cbn [nadd nsub nmul ndiv nneg of_int C_ops p11 p12 p21 p22] in *;
  rewrite ?RtoC_2, ?RtoC_m2, ?RtoC_4 in *.

Lemma two_port_eq {A : Type} (a b : TwoPort A) :
  p11 a = p11 b -> p12 a = p12 b -> p21 a = p21 b -> p22 a = p22 b -> a = b.
Proof. destruct a, b; simpl; intros -> -> -> ->; reflexivity. Qed.

Lemma cs_to_cg_involutive (y : TwoPort C) : cs_to_cg (cs_to_cg y) = y.
Proof.
  apply two_port_eq; unfold cs_to_cg; cnorm; ring.
Qed.







Lemma Zind_value (f M L : R) :
  Zind f M L = mkC 0 (2 * PI * f * M * L).
Proof. unfold Zind; cnorm. apply C_eq; simpl; ring. Qed.


(* ===================================================================== *)
(** * The loop of [calcCommGateParam] *)

Lemma set2_lookup {A : Type} (s : list (list A)) (i k : nat) (v : A)
    (row : list A) :
  s !! i = Some row -> (k < length row)%nat ->
  set2 s i k v = Some (<[i := <[k := v]> row]> s).
Proof.
  intros Hs Hk. unfold set2. rewrite Hs. simpl.
  rewrite decide_True by assumption. reflexivity.
Qed.

Lemma set2_insert {A : Type} (s : list (list A)) (i k : nat) (v : A)
    (row : list A) :
  (i < length s)%nat -> (k < length row)%nat ->
  set2 (<[i := row]> s) i k v = Some (<[i := <[k := v]> row]> s).
Proof.
  intros Hi Hk.
  rewrite (set2_lookup _ i k v row).
  - rewrite list_insert_insert_eq. reflexivity.
  - apply list_lookup_insert_eq; assumption.
  - assumption.
Qed.

Section LoopFacts.
Variables (Z0 M L : R).

Lemma loop_body_row (data s : list (list R)) (i : nat) (row : list R) :
  data !! i = Some row ->
  s !! i = Some (replicate 9 0%R) ->
  loop_body Z0 M L data i s
  = (out ← calc_row Z0 M L row; Some (<[i := out]> s)).
Proof.
  intros Hd Hs.
  assert (Hi : (i < length s)%nat) by (eapply lookup_lt_Some; eassumption).
  unfold loop_body, get2. rewrite Hd.
  destruct row as [|d0 [|d1 [|d2 [|d3 [|d4 [|d5 [|d6 [|d7 [|d8 rest]]]]]]]]];
    try reflexivity.
  cbn [mbind option_bind lookup list_lookup].
  rewrite (set2_lookup s i 0 _ _ Hs) by (simpl; lia).
  cbn [mbind option_bind].
  repeat (rewrite set2_insert by (simpl; lia); cbn [mbind option_bind]).
  reflexivity.
Qed.
End LoopFacts.

Section LoopInvariant.
Variables (Z0 M L : R).

(** After the rows of [done] the output holds their results [outs],
    followed by the rows of zeros still to be written. *)
Lemma for_each_rows (rest done : list (list R)) (outs : list (list R)) :
  length outs = length done ->
  for_each (loop_body Z0 M L (done ++ rest))
    (seq (length done) (length rest))
    (outs ++ replicate (length rest) (replicate 9 0%R))
  = (fun o => outs ++ o) <$> mapM (calc_row Z0 M L) rest.
Proof.
  revert done outs.
  induction rest as [|row rest IH]; intros done outs Hlen.
  - simpl. rewrite !app_nil_r. reflexivity.
  - cbn [length seq for_each replicate].
    rewrite (loop_body_row Z0 M L _ _ _ row).
    + cbn [mapM]. destruct (calc_row Z0 M L row) as [out|]; [|reflexivity].
      cbn [mbind option_bind].
      replace (<[length done := out]>
                 (outs ++ replicate 9 0%R
                         :: replicate (length rest) (replicate 9 0%R)))
        with ((outs ++ [out]) ++ replicate (length rest) (replicate 9 0%R)).
      * replace (done ++ row :: rest) with ((done ++ [row]) ++ rest)
          by (rewrite <- app_assoc; reflexivity).
        replace (S (length done)) with (length (done ++ [row]))
          by (rewrite length_app; simpl; lia).
        rewrite IH by (rewrite !length_app; simpl; lia).
        destruct (mapM (calc_row Z0 M L) rest) as [outs'|]; simpl;
          [rewrite <- app_assoc; reflexivity | reflexivity].
      * rewrite <- Hlen, insert_app_r_alt by lia.
        rewrite Nat.sub_diag, <- app_assoc. reflexivity.
    + apply list_lookup_middle. reflexivity.
    + apply list_lookup_middle. symmetry; assumption.
Qed.

Lemma calcCommGateParam_mapM (data : list (list R)) :
  calcCommGateParam Z0 M L 9 data = mapM (calc_row Z0 M L) data.
Proof.
  unfold calcCommGateParam, np_zeros.
  pose proof (for_each_rows data [] [] eq_refl) as H.
  cbn [app length] in H. cbv zeta. rewrite H.
  destruct (mapM (calc_row Z0 M L) data); reflexivity.
Qed.

Lemma calc_row_length (row out : list R) :
  calc_row Z0 M L row = Some out -> length out = 9%nat.
Proof.
  unfold calc_row. destruct (record_of_row row); simpl; [|discriminate].
  intros [= <-]. reflexivity.
Qed.

Lemma calc_row_frequency (row out : list R) :
  calc_row Z0 M L row = Some out ->
  out !! 0%nat = row !! 0%nat /\ is_Some (row !! 0%nat).
Proof.
  unfold calc_row, record_of_row.
  destruct row as [|d0 [|d1 [|d2 [|d3 [|d4 [|d5 [|d6 [|d7 [|d8 rest]]]]]]]]];
    simpl; try discriminate.
  intros [= <-]. split; [reflexivity | eexists; reflexivity].
Qed.
End LoopInvariant.

(* ===================================================================== *)
(** * C1: the topology transform applied twice *)

(** C1, as stated, fails: on [y_sample] the transform applied twice gives
    [y_sample] back. *)
Lemma topology_twice_recovers_sample :
  cs_to_cg (cs_to_cg y_sample) = y_sample.
Proof.
  unfold y_sample, cs_to_cg.
  apply two_port_eq; apply C_eq; simpl; lra.
Qed.

(** C1 (amended): the topology transform of lines 62-65 is an involution;
    applied twice to any admittance two-port it returns the original
    common-source parameters. *)
Theorem topology_transform_involution :
  forall y : TwoPort C, cs_to_cg (cs_to_cg y) = y.
Proof.
  intros y. apply cs_to_cg_involutive.
Qed.

(* ===================================================================== *)
(** * C2: round trips through the admittance and impedance domains *)






(* ===================================================================== *)
(** * C4: the Scattering->Admittance formulas *)

(** C4: for every scattering two-port, in exact and in binary64
    arithmetic alike, lines 56-60 return the four quotients of the
    specification, all over [Δ = (1+S11)(1+S22) - S12 S21]. *)
Theorem s_to_y_formulas :
  forall (T : Type) (ops : NumOps T) (s : TwoPort T),
    let Δ := del6 s in
    s_to_y s = spec_s_to_y s /\
    p11 (s_to_y s)
      = (((of_int 1 - p11 s) * (of_int 1 + p22 s) + p12 s * p21 s) / Δ)%num /\
    p12 (s_to_y s) = (of_int (-2) * p12 s / Δ)%num /\
    p21 (s_to_y s) = (of_int (-2) * p21 s / Δ)%num /\
    p22 (s_to_y s)
      = (((of_int 1 + p11 s) * (of_int 1 - p22 s) + p12 s * p21 s) / Δ)%num.
Proof.
  intros T ops s Δ. repeat split.
Qed.

(* ===================================================================== *)
(** * What [process_file] computes, row by row *)

Lemma process_file_rows (float : string -> option R) (lines : list string)
    (inductance : R) :
  process_file float lines inductance
  = mapM (calc_row 50 1e6 (inductance * 1e-9))
         (parseSparamFile float 9 lines).
Proof. unfold process_file. apply calcCommGateParam_mapM. Qed.

Lemma mapM_ext_Forall {A B : Type} (f g : A -> option B) (l : list A) :
  Forall (fun x => f x = g x) l -> mapM f l = mapM g l.
Proof.
  induction 1 as [|x l Hx _ IH]; [reflexivity|].
  cbn [mapM]. rewrite Hx, IH. reflexivity.
Qed.

(* ===================================================================== *)
(** * C5: the inductor injection *)

(** C5: in a run of [process_file], every kept row goes through the
    injection of the specification: the impedance
    [j 2 pi frequency 1e6 (inductance_nH 1e-9)] is added to all four
    entries of the common-gate impedance matrix of that row. *)
Theorem inductor_injection_adds_Zind :
  forall (float : string -> option R) (lines : list string)
         (inductance_nH : R),
    (forall f Z,
       add_series (Zind f 1e6 (inductance_nH * 1e-9)) Z
       = spec_injection f inductance_nH Z) /\
    process_file float lines inductance_nH
    = mapM (spec_injected_row inductance_nH) (parseSparamFile float 9 lines).
Proof.
  intros float lines nH.
  assert (Hinj : forall f Z,
            add_series (Zind f 1e6 (nH * 1e-9)) Z = spec_injection f nH Z).
  { intros f Z. unfold add_series, spec_injection.
    rewrite Zind_value. reflexivity. }
  split; [exact Hinj|].
  rewrite process_file_rows. apply mapM_ext_Forall, Forall_forall.
  intros row _. unfold calc_row, spec_injected_row.
  destruct (record_of_row row) as [r|]; [|reflexivity].
  simpl. unfold calc_record, pipeline, cg_impedance_degenerated.
  rewrite Hinj. reflexivity.
Qed.

(* ===================================================================== *)
(** * C3: zero inductance *)








(* ===================================================================== *)
(** * C7: the loop is a map over the rows *)

Lemma mapM_select {A B : Type} (f : A -> option B) (l : list A) (k : list B)
    (idx : list nat) :
  mapM f l = Some k -> mapM f (select idx l) = Some (select idx k).
Proof.
  intros Hm. apply mapM_Some in Hm. apply mapM_Some.
  unfold select. induction idx as [|i idx IH]; [constructor|].
  cbn [omap list_omap].
  destruct (l !! i) as [x|] eqn:Hx.
  - destruct (Forall2_lookup_l _ _ _ _ _ Hm Hx) as (y & Hy & Hf).
    rewrite Hy. constructor; assumption.
  - assert (Hk : k !! i = None).
    { apply lookup_ge_None. apply lookup_ge_None in Hx.
      rewrite <- (Forall2_length _ _ _ Hm). exact Hx. }
    rewrite Hk. exact IH.
Qed.

(** C7: the loop of [calcCommGateParam] is a map of the row function
    [calc_row] over the input rows.  When it returns, there is one output
    row per input row, row [i] of the output is [calc_row] of row [i] of
    the input alone and carries its frequency unchanged, and selecting the
    input rows by any list of indices (a permutation, for one) selects the
    output rows by the same indices. *)
Theorem calcCommGateParam_is_row_map :
  forall (Z0 M L : R) (data : list (list R)),
    calcCommGateParam Z0 M L 9 data = mapM (calc_row Z0 M L) data /\
    forall out : list (list R),
      calcCommGateParam Z0 M L 9 data = Some out ->
      length out = length data /\
      (forall (i : nat) (row : list R),
          data !! i = Some row ->
          exists o : list R,
            (out !! i = Some o) /\ (calc_row Z0 M L row = Some o) /\
            (o !! 0%nat = row !! 0%nat)) /\
      (forall idx : list nat,
          calcCommGateParam Z0 M L 9 (select idx data)
          = Some (select idx out)) /\
      (forall data' : list (list R),
          data ≡ₚ data' ->
          exists out', (calcCommGateParam Z0 M L 9 data' = Some out') /\
                       (out ≡ₚ out')).
Proof.
  intros Z0 M L data. split; [apply calcCommGateParam_mapM|].
  intros out Hout. rewrite calcCommGateParam_mapM in Hout.
  pose proof Hout as HF. apply mapM_Some in HF.
  repeat split.
  - symmetry. eapply Forall2_length, HF.
  - intros i row Hrow.
    destruct (Forall2_lookup_l _ _ _ _ _ HF Hrow) as (o & Ho & Hf).
    exists o. repeat split; try assumption.
    eapply calc_row_frequency, Hf.
  - intros idx. rewrite calcCommGateParam_mapM.
    apply mapM_select, Hout.
  - intros data' Hp. clear Hout. revert out HF.
    induction Hp as [|x l l' Hp IH|x y l|l l' l'' Hp1 IH1 Hp2 IH2];
      intros out HF.
    + exists []. apply Forall2_nil_inv_l in HF. subst. split; reflexivity.
    + apply Forall2_cons_inv_l in HF as (o & out1 & Ho & HF1 & ->).
      destruct (IH _ HF1) as (out' & Hc & Hq).
      exists (o :: out'). rewrite calcCommGateParam_mapM in *.
      split; [|constructor; exact Hq].
      cbn [mapM]. rewrite Ho, Hc. reflexivity.
    + apply Forall2_cons_inv_l in HF as (oy & out1 & Hoy & HF1 & ->).
      apply Forall2_cons_inv_l in HF1 as (ox & out2 & Hox & HF2 & ->).
      exists (ox :: oy :: out2). rewrite calcCommGateParam_mapM.
      split; [|constructor].
      cbn [mapM]. rewrite Hox, Hoy.
      apply mapM_Some in HF2. rewrite HF2. reflexivity.
    + destruct (IH1 _ HF) as (out1 & Hc1 & Hq1).
      rewrite calcCommGateParam_mapM in Hc1. apply mapM_Some in Hc1.
      destruct (IH2 _ Hc1) as (out2 & Hc2 & Hq2).
      exists out2. split; [exact Hc2 | etransitivity; eassumption].
Qed.

(** No row: the loop is not entered.  A row of three columns: the read
    of column 3 is out of range and the call fails. *)
Example calcCommGateParam_no_row :
  calcCommGateParam 50 1e6 0 9 [] = Some [].
Proof. reflexivity. Qed.

Example calcCommGateParam_short_row :
  calcCommGateParam 50 1e6 0 9 [[1; 2; 3]%R] = None.
Proof. rewrite calcCommGateParam_mapM. reflexivity. Qed.

(* ===================================================================== *)
(** * C9: which lines the parser keeps *)

Section ParserFacts.
Context {A : Type} (float : string -> option A).

Lemma passes_mapM (col : nat) (line : string) (fields : list A) :
  passes float col line fields <->
  startswith "!" line = false /\ startswith "#" line = false /\
  mapM float (split line) = Some fields /\ length fields = col.
Proof.
  unfold passes. rewrite mapM_Some. reflexivity.
Qed.

(** One turn of the loop appends the fields of a line that passes and
    leaves [data] alone otherwise. *)
Lemma parse_step_cases (col : nat) (data : list (list A)) (line : string) :
  (exists fields, passes float col line fields /\
                  parse_step float col data line = data ++ [fields]) \/
  ((forall fields, ~ passes float col line fields) /\
   parse_step float col data line = data).
Proof.
  unfold parse_step.
  destruct (startswith "!" line) eqn:Hbang; simpl.
  { right. split; [|reflexivity].
    intros fields Hp. apply passes_mapM in Hp as (Hb & _). congruence. }
  destruct (startswith "#" line) eqn:Hhash; simpl.
  { right. split; [|reflexivity].
    intros fields Hp. apply passes_mapM in Hp as (_ & Hh & _). congruence. }
  destruct (mapM float (split line)) as [parsed_line|] eqn:Hm.
  - destruct (decide (length parsed_line = col)) as [Hlen | Hlen].
    + left. exists parsed_line. split; [|reflexivity].
      apply passes_mapM. repeat split; assumption.
    + right. split; [|reflexivity].
      intros fields Hp. apply passes_mapM in Hp as (_ & _ & Hm' & Hl).
      congruence.
  - right. split; [|reflexivity].
    intros fields Hp. apply passes_mapM in Hp as (_ & _ & Hm' & _).
    congruence.
Qed.

Lemma parse_step_app (col : nat) (data : list (list A)) (line : string) :
  parse_step float col data line = data ++ parse_step float col [] line.
Proof.
  unfold parse_step.
  destruct (startswith "!" line || startswith "#" line);
    [rewrite app_nil_r; reflexivity|].
  destruct (mapM float (split line)) as [pl|];
    [|rewrite app_nil_r; reflexivity].
  destruct (decide (length pl = col));
    [reflexivity | rewrite app_nil_r; reflexivity].
Qed.

Lemma foldl_parse_step_app (col : nat) (lines : list string)
    (data : list (list A)) :
  foldl (parse_step float col) data lines
  = data ++ foldl (parse_step float col) [] lines.
Proof.
  revert data. induction lines as [|line lines IH]; intros data.
  - simpl. rewrite app_nil_r. reflexivity.
  - cbn [foldl]. rewrite (IH (parse_step float col data line)).
    rewrite (IH (parse_step float col [] line)).
    rewrite (parse_step_app col data line), app_assoc. reflexivity.
Qed.

Lemma parseSparamFile_cons (col : nat) (line : string) (lines : list string) :
  parseSparamFile float col (line :: lines)
  = parse_step float col [] line ++ parseSparamFile float col lines.
Proof.
  unfold parseSparamFile. cbn [foldl]. apply foldl_parse_step_app.
Qed.

Lemma parseSparamFile_Kept (col : nat) (lines : list string) :
  Kept float col lines (parseSparamFile float col lines).
Proof.
  induction lines as [|line lines IH]; [constructor|].
  rewrite parseSparamFile_cons.
  destruct (parse_step_cases col [] line) as [(f & Hf & ->) | (Hf & ->)].
  - apply Kept_pass; assumption.
  - apply Kept_drop; assumption.
Qed.

Lemma Kept_elem_of (col : nat) (lines : list string) (rows : list (list A)) :
  Kept float col lines rows ->
  forall fields,
    fields ∈ rows <->
    exists line, line ∈ lines /\ passes float col line fields.
Proof.
  induction 1 as [|line f lines rows Hp HK IH|line lines rows Hn HK IH];
    intros fields.
  - split; [intros Hin; inversion Hin|].
    intros (line & Hin & _). inversion Hin.
  - rewrite elem_of_cons, IH. split.
    + intros [-> | (l & Hl & Hpl)].
      * exists line. split; [left|assumption].
      * exists l. split; [right; assumption|assumption].
    + intros (l & Hl & Hpl). apply elem_of_cons in Hl as [-> | Hl].
      * left. apply passes_mapM in Hp as (_ & _ & Hm1 & _).
        apply passes_mapM in Hpl as (_ & _ & Hm2 & _). congruence.
      * right. exists l. split; assumption.
  - rewrite IH. split.
    + intros (l & Hl & Hpl). exists l. split; [right; assumption|assumption].
    + intros (l & Hl & Hpl). apply elem_of_cons in Hl as [-> | Hl].
      * exfalso. eapply Hn, Hpl.
      * exists l. split; assumption.
Qed.
End ParserFacts.

(** C9: [parseSparamFile] with nine columns returns the fields of exactly
    the lines that do not start with '!' or '#', whose tokens all convert
    to numbers and that have nine of them, in the order of the file; all
    other lines leave nothing, and no line makes the parser fail. *)
Theorem parser_keeps_exactly_valid_rows :
  forall (A : Type) (float : string -> option A) (lines : list string),
    Kept float 9 lines (parseSparamFile float 9 lines) /\
    forall fields : list A,
      fields ∈ parseSparamFile float 9 lines <->
      exists line, line ∈ lines /\ passes float 9 line fields.
Proof.
  intros A float lines. split.
  - apply parseSparamFile_Kept.
  - apply Kept_elem_of, parseSparamFile_Kept.
Qed.

(** A header, a data row, a short row, a row with a word in it, an empty
    line and a second data row with tabs. *)
Example parser_run :
  parseSparamFile int_float 3
    [ "! x"; " 1 2 3 "; "4 5"; "# r"; "6 -7 +8 "; "a b c"; "";
      String "009" "9 10" ++ String "009" "11" ++ String "010" "" ]%string
  = [[1; 2; 3]; [6; -7; 8]; [9; 10; 11]]%R.
Proof. vm_compute. reflexivity. Qed.

(* ===================================================================== *)
(** * C10: a file without data rows *)

Lemma Kept_all_dropped {A : Type} (float : string -> option A) (col : nat)
    (lines : list string) (rows : list (list A)) :
  Kept float col lines rows ->
  Forall (fun line => forall fields, ~ passes float col line fields) lines ->
  rows = [].
Proof.
  induction 1 as [|line f lines rows Hp HK IH|line lines rows Hn HK IH];
    intros Hall.
  - reflexivity.
  - apply Forall_cons in Hall as [Hline _]. exfalso. eapply Hline, Hp.
  - apply Forall_cons in Hall as [_ Hrest]. apply IH, Hrest.
Qed.

(** C10: when no line of the file passes (comments, malformed or short
    lines only), the parser returns no row, the loop of
    [calcCommGateParam] is not entered and [process_file] succeeds with an
    output of zero rows. *)
Theorem empty_input_gives_empty_output :
  forall (float : string -> option R) (lines : list string) (inductance : R),
    Forall (fun line => forall fields, ~ passes float 9 line fields) lines ->
    parseSparamFile float 9 lines = [] /\
    calcCommGateParam 50 1e6 (inductance * 1e-9) 9 [] = Some [] /\
    process_file float lines inductance = Some [].
Proof.
  intros float lines inductance Hall.
  assert (Hrows : parseSparamFile float 9 lines = []).
  { eapply Kept_all_dropped; [apply parseSparamFile_Kept | exact Hall]. }
  split; [exact Hrows|]. split; [reflexivity|].
  unfold process_file. cbv zeta. rewrite Hrows. reflexivity.
Qed.

Lemma header_only_file_dropped :
  Forall (fun line => forall fields, ~ passes int_float 9 line fields)
         header_only_file.
Proof.
  unfold header_only_file.
  repeat (apply Forall_cons; split); try apply Forall_nil_2;
    intros fields Hp; apply passes_mapM in Hp as (Hb & Hh & Hm & Hl);
    vm_compute in Hb, Hh, Hm; try discriminate.
  - injection Hm as <-. simpl in Hl. discriminate.
  - injection Hm as <-. simpl in Hl. discriminate.
Qed.

Lemma empty_input_gives_empty_output_witness :
  process_file int_float header_only_file 3 = Some [].
Proof.
  apply (empty_input_gives_empty_output int_float header_only_file 3).
  apply header_only_file_dropped.
Defined.

(* ===================================================================== *)
(** * C6: a zero determinant in binary64 arithmetic *)

Module Complex128Facts.
Import Stdlib.Floats.Floats.
Import Complex128.
Local Open Scope float_scope.

Lemma is_zero_Prim2SF (d : float) :
  is_zero d = true -> exists sg, Prim2SF d = S754_zero sg.
Proof.
  unfold is_zero. rewrite eqb_spec.
  change (Prim2SF 0) with (S754_zero false).
  destruct (Prim2SF d) as [sg | sg | | sg m e]; cbn.
  - intros _. exists sg. reflexivity.
  - destruct sg; discriminate.
  - discriminate.
  - destruct sg; discriminate.
Qed.

(** Any double divided by [abs] of a zero is infinite or not a number. *)
Lemma nonfinite_div_abs_zero (x d : float) :
  is_zero d = true -> nonfinite (x / abs d) = true.
Proof.
  intros Hd. destruct (is_zero_Prim2SF d Hd) as [sg Hsg].
  unfold nonfinite, is_nan, is_infinity.
  rewrite !eqb_spec, abs_spec, !div_spec, abs_spec, Hsg.
  change (Prim2SF infinity) with (S754_infinity false).
  destruct (Prim2SF x) as [sx | sx | | sx m e]; cbn;
    try reflexivity; destruct sx; reflexivity.
Qed.

Lemma abs_zero_eqb (d : float) : is_zero d = true -> (abs d =? 0) = true.
Proof.
  intros Hd. destruct (is_zero_Prim2SF d Hd) as [sg Hsg].
  rewrite eqb_spec, abs_spec, Hsg. reflexivity.
Qed.

Lemma abs_zero_leb (d e : float) :
  is_zero d = true -> is_zero e = true -> (abs e <=? abs d) = true.
Proof.
  intros Hd He.
  destruct (is_zero_Prim2SF d Hd) as [sd Hsd].
  destruct (is_zero_Prim2SF e He) as [se Hse].
  rewrite leb_spec, !abs_spec, Hsd, Hse. reflexivity.
Qed.

(** The quotient by a zero divisor takes the first branch of [div]. *)
Lemma div_zero_divisor (a b : c128) :
  is_zero_c b = true ->
  div a b = mk (real a / abs (real b)) (imag a / abs (real b)).
Proof.
  unfold is_zero_c. intros Hb. apply andb_prop in Hb as [Hr Hi].
  unfold div. cbv zeta.
  rewrite (abs_zero_leb _ _ Hr Hi), (abs_zero_eqb _ Hr), (abs_zero_eqb _ Hi).
  reflexivity.
Qed.

Lemma nonfinite_div_zero (a b : c128) :
  is_zero_c b = true ->
  nonfinite (real (div a b)) = true /\ nonfinite (imag (div a b)) = true.
Proof.
  intros Hb. rewrite (div_zero_divisor a b Hb). cbn [real imag].
  unfold is_zero_c in Hb. apply andb_prop in Hb as [Hr _].
  split; apply nonfinite_div_abs_zero, Hr.
Qed.

Lemma nan_nonfinite (x : float) : Prim2SF x = S754_nan -> nonfinite x = true.
Proof.
  intros Hx. unfold nonfinite, is_nan. rewrite eqb_spec, Hx. reflexivity.
Qed.

(** The difference of two doubles that compare equal is a zero, or NaN
    (for two infinities). *)
Lemma sub_of_equal (x y : float) :
  (x =? y) = true -> zero_or_nan (Prim2SF (x - y)) = true.
Proof.
  rewrite eqb_spec, sub_spec. unfold SF64sub, SFeqb.
  destruct (Prim2SF x) as [sx | sx | | sx mx ex],
           (Prim2SF y) as [sy | sy | | sy my ey];
    cbn [SFcompare SFsub];
    try discriminate; try (destruct sx, sy; (discriminate || reflexivity)).
  destruct sx, sy; try discriminate;
    destruct (Z.compare ex ey) eqn:He; try discriminate;
    apply Z.compare_eq in He; subst ey;
    destruct (PosDef.Pos.compare_cont Eq mx my) eqn:Hm; try discriminate;
    apply Pos.compare_eq in Hm; subst my;
    intros _; rewrite Z.sub_diag; reflexivity.
Qed.

Lemma mul_nan_r (x y : float) :
  Prim2SF y = S754_nan -> Prim2SF (x * y) = S754_nan.
Proof.
  intros Hy. rewrite mul_spec, Hy. unfold SF64mul.
  destruct (Prim2SF x); reflexivity.
Qed.

Lemma div_nan_r (x y : float) :
  Prim2SF y = S754_nan -> Prim2SF (x / y) = S754_nan.
Proof.
  intros Hy. rewrite div_spec, Hy. unfold SF64div.
  destruct (Prim2SF x); reflexivity.
Qed.

Lemma div_nan_l (x y : float) :
  Prim2SF x = S754_nan -> Prim2SF (x / y) = S754_nan.
Proof. intros Hx. rewrite div_spec, Hx. reflexivity. Qed.

Lemma add_nan_l (x y : float) :
  Prim2SF x = S754_nan -> Prim2SF (x + y) = S754_nan.
Proof. intros Hx. rewrite add_spec, Hx. reflexivity. Qed.

Lemma add_nan_r (x y : float) :
  Prim2SF y = S754_nan -> Prim2SF (x + y) = S754_nan.
Proof.
  intros Hy. rewrite add_spec, Hy. unfold SF64add.
  destruct (Prim2SF x); reflexivity.
Qed.

Lemma leb_abs_nan (x y : float) :
  Prim2SF x = S754_nan \/ Prim2SF y = S754_nan ->
  (abs x <=? abs y) = false.
Proof.
  intros H. rewrite leb_spec, !abs_spec. unfold SFleb.
  destruct H as [-> | ->]; [reflexivity|].
  destruct (Prim2SF x); reflexivity.
Qed.

(** A divisor with a NaN component, the other being NaN or zero, makes
    both components of the quotient NaN. *)
Lemma div_nan_divisor (a b : c128) :
  zero_or_nan (Prim2SF (real b)) = true ->
  zero_or_nan (Prim2SF (imag b)) = true ->
  is_zero_c b = false ->
  Prim2SF (real (div a b)) = S754_nan /\ Prim2SF (imag (div a b)) = S754_nan.
Proof.
  intros Hr Hi Hnz.
  assert (Hnan : Prim2SF (real b) = S754_nan \/ Prim2SF (imag b) = S754_nan).
  { unfold is_zero_c, is_zero in Hnz. rewrite !eqb_spec in Hnz.
    change (Prim2SF 0) with (S754_zero false) in Hnz.
    destruct (Prim2SF (real b)) as [sr | | |], (Prim2SF (imag b)) as [si | | |];
      try discriminate; auto. }
  assert (Hscl : Prim2SF (1 / (imag b + real b * (real b / imag b)))
                 = S754_nan).
  { apply div_nan_r.
    destruct (Prim2SF (imag b)) as [si | | |] eqn:Hib; try discriminate.
    - destruct Hnan as [Hrb | ?]; [|discriminate].
      apply add_nan_r, mul_nan_r, div_nan_l, Hrb.
    - apply add_nan_l, Hib. }
  unfold div. cbv zeta.
  rewrite leb_abs_nan by (destruct Hnan; auto).
  cbn [real imag]. split; apply mul_nan_r, Hscl.
Qed.

Lemma nonfinite_div_zero_or_nan (a b : c128) :
  zero_or_nan (Prim2SF (real b)) = true ->
  zero_or_nan (Prim2SF (imag b)) = true ->
  nonfinite (real (div a b)) = true /\ nonfinite (imag (div a b)) = true.
Proof.
  intros Hr Hi. destruct (is_zero_c b) eqn:Hz.
  - apply nonfinite_div_zero, Hz.
  - destruct (div_nan_divisor a b Hr Hi Hz) as [H1 H2].
    split; apply nan_nonfinite; assumption.
Qed.

Lemma is_zero_zero_or_nan (d : float) :
  is_zero d = true -> zero_or_nan (Prim2SF d) = true.
Proof.
  intros Hd. destruct (is_zero_Prim2SF d Hd) as [sg ->]. reflexivity.
Qed.

Lemma s_to_y_nonfinite (s : TwoPort c128) :
  zero_or_nan (Prim2SF (real (del6 s))) = true ->
  zero_or_nan (Prim2SF (imag (del6 s))) = true ->
  all_nonfinite (s_to_y s) = true.
Proof.
  intros Hr Hi. unfold all_nonfinite, s_to_y. cbv zeta.
  fold (del6 s). cbn [p11 p12 p21 p22 ndiv ops].
  repeat match goal with
  | |- context [div ?a (del6 s)] =>
      let H1 := fresh "H" in let H2 := fresh "H" in
      destruct (nonfinite_div_zero_or_nan a (del6 s) Hr Hi) as [H1 H2];
      rewrite H1, H2; clear H1 H2
  end.
  reflexivity.
Qed.

(** C6: in binary64 arithmetic, when the two products of line 56 are
    equal, so that the determinant [(1+S11)(1+S22) - S12 S21] is zero (or
    NaN, for equal infinities), and in particular whenever the computed
    determinant is zero, all eight components of the four admittances
    that lines 57-60 return are infinite or not a number: there is no
    guard, default or clamp, and the values are returned as they are. *)
Theorem zero_determinant_gives_nonfinite :
  forall s : TwoPort c128,
    (ceqb ((of_int 1 + p11 s) * (of_int 1 + p22 s))%num
          (p12 s * p21 s)%num = true
     \/ is_zero_c (del6 s) = true) ->
    all_nonfinite (s_to_y s) = true.
Proof.
  intros s [Heq | Hz].
  - unfold ceqb in Heq. apply andb_prop in Heq as [Hre Him].
    apply s_to_y_nonfinite; unfold del6;
      cbn [nsub ops sub real imag]; apply sub_of_equal; assumption.
  - unfold is_zero_c in Hz. apply andb_prop in Hz as [Hre Him].
    apply s_to_y_nonfinite; apply is_zero_zero_or_nan; assumption.
Qed.

Lemma zero_determinant_gives_nonfinite_witness :
  ceqb ((of_int 1 + p11 singular_sample) * (of_int 1 + p22 singular_sample))%num
       (p12 singular_sample * p21 singular_sample)%num = true /\
  all_nonfinite (s_to_y singular_sample) = true.
Proof.
  split; [vm_compute; reflexivity|].
  apply (zero_determinant_gives_nonfinite singular_sample).
  left. vm_compute; reflexivity.
Defined.

(** In binary64 arithmetic lines 73-94 with a zero inductance are not a
    bit-for-bit identity.  For [real_axis_sample] at 1 GHz the
    common-gate S21 of lines 67-71 is negative with imaginary part +0;
    after lines 73-94, with [Zind = 0], it is negative with imaginary
    part -0, the argument at which [arctan2] returns -pi. *)
Theorem binary64_zero_inductance_flips_zero :
  let sg := cs_to_cg_scattering real_axis_sample in
  let so := stage5 (Zind 1e9 1e6 0) sg in
  Zind 1e9 1e6 0 = mk 0 0 /\
  (real (p21 sg) <? 0) = true /\ Prim2SF (imag (p21 sg)) = S754_zero false /\
  (real (p21 so) <? 0) = true /\ Prim2SF (imag (p21 so)) = S754_zero true.
Proof. vm_compute. repeat split. Qed.
End Complex128Facts.

(* ===================================================================== *)
(** * Rounding of binary64 products

    What [SFmul] returns when the exact product lies below a double:
    the mantissa is shifted right to 53 digits, rounded to nearest even
    and, if the rounding carried, shifted once more. *)

Module Binary64Rounding.
Import Stdlib.Floats.Floats.
Import Complex128.
Local Open Scope Z_scope.

Lemma digits2_pos_bounds (p : positive) :
  2 ^ (Z.pos (digits2_pos p) - 1) <= Z.pos p < 2 ^ Z.pos (digits2_pos p).
Proof.
  induction p as [p IH | p IH |]; cbn [digits2_pos].
  - rewrite Pos2Z.inj_succ.
    replace (Z.succ (Z.pos (digits2_pos p)) - 1) with (Z.succ (Z.pos (digits2_pos p) - 1)) by lia.
    rewrite !Z.pow_succ_r by lia. lia.
  - rewrite Pos2Z.inj_succ.
    replace (Z.succ (Z.pos (digits2_pos p)) - 1) with (Z.succ (Z.pos (digits2_pos p) - 1)) by lia.
    rewrite !Z.pow_succ_r by lia. lia.
  - simpl. lia.
Qed.

Lemma shr_1_m (mrs : shr_record) :
  0 <= shr_m mrs -> shr_m (shr_1 mrs) = shr_m mrs / 2.
Proof.
  destruct mrs as [m r s]. cbn [shr_m]. intros Hm.
  destruct m as [|[p|p|]|p]; cbn [shr_1 shr_m]; try lia.
  - reflexivity.
  - rewrite Pos2Z.inj_xI. apply Z.div_unique with 1; lia.
  - rewrite Pos2Z.inj_xO. apply Z.div_unique with 0; lia.
  - reflexivity.
Qed.

Lemma shr_m_iter (p : positive) (mrs : shr_record) :
  0 <= shr_m mrs ->
  shr_m (iter_pos shr_1 p mrs) = shr_m mrs / 2 ^ Z.pos p.
Proof.
  revert mrs.
  induction p as [p IH | p IH |]; intros mrs Hm; cbn [iter_pos].
  - assert (H1 : 0 <= shr_m (shr_1 mrs))
      by (rewrite shr_1_m by exact Hm; apply Z.div_pos; lia).
    assert (H2 : 0 <= shr_m (iter_pos shr_1 p (shr_1 mrs)))
      by (rewrite IH by exact H1; apply Z.div_pos; lia).
    rewrite IH, IH, shr_1_m by assumption.
    rewrite !Z.div_div by lia. f_equal.
    replace (Z.pos p~1) with (1 + Z.pos p + Z.pos p) by lia.
    rewrite !Z.pow_add_r by lia. change (2 ^ 1) with 2. lia.
  - assert (H2 : 0 <= shr_m (iter_pos shr_1 p mrs))
      by (rewrite IH by exact Hm; apply Z.div_pos; lia).
    rewrite IH, IH by assumption.
    rewrite !Z.div_div by lia. f_equal.
    replace (Z.pos p~0) with (Z.pos p + Z.pos p) by lia.
    rewrite !Z.pow_add_r by lia. lia.
  - rewrite shr_1_m by exact Hm. reflexivity.
Qed.

Lemma round_nearest_even_bounds (m : Z) (l : location) :
  m <= round_nearest_even m l <= m + 1.
Proof.
  destruct l as [|[| |]]; cbn [round_nearest_even]; try lia.
  destruct (Z.even m); lia.
Qed.
Lemma fexp_64 (x : Z) : fexp prec emax x = Z.max (x - 53) (-1074).
Proof. reflexivity. Qed.

Lemma shr_none (mrs : shr_record) (e n : Z) : n <= 0 -> shr mrs e n = (mrs, e).
Proof. destruct n; [reflexivity | lia | reflexivity]. Qed.

Lemma shr_some (mrs : shr_record) (e n : Z) :
  0 < n -> 0 <= shr_m mrs ->
  exists mrs', shr mrs e n = (mrs', e + n) /\ shr_m mrs' = shr_m mrs / 2 ^ n.
Proof.
  intros Hn Hm. destruct n as [|p|p]; try lia.
  eexists. split; [reflexivity|]. apply shr_m_iter, Hm.
Qed.

Lemma Zdigits2_le (m : Z) (n : Z) : 0 <= n -> 0 <= m < 2 ^ n -> Zdigits2 m <= n.
Proof.
  intros Hn [H0 Hm]. destruct m as [|p|p]; [exact Hn | | lia].
  cbn [Zdigits2]. pose proof (digits2_pos_bounds p) as [Hlo _].
  destruct (Z_lt_le_dec n (Z.pos (digits2_pos p))) as [Hlt|]; [|assumption].
  assert (2 ^ n <= 2 ^ (Z.pos (digits2_pos p) - 1))
    by (apply Z.pow_le_mono_r; lia).
  lia.
Qed.

Lemma binary_round_aux_below (sx : bool) (P : positive) (E : Z)
    (m0 : positive) (e0 : Z) :
  E < fexp prec emax (Z.pos (digits2_pos P) + E) ->
  fexp prec emax (Z.pos (digits2_pos P) + E) <= e0 ->
  e0 <= emax - prec -> 2 ^ 52 <= Z.pos m0 < 2 ^ 53 ->
  (fexp prec emax (Z.pos (digits2_pos P) + E) = e0 ->
   Z.pos P < Z.pos m0 * 2 ^ (e0 - E)) ->
  below sx m0 e0 (binary_round_aux prec emax sx (Z.pos P) E loc_Exact).
Proof.
  intros Hk He0 Hmax Hm0 Hval.
  unfold binary_round_aux, shr_fexp. cbn [Zdigits2].
  set (d := Z.pos (digits2_pos P)) in *.
  set (e' := fexp prec emax (d + E)) in *.
  destruct (shr_some (shr_record_of_loc (Z.pos P) loc_Exact) E (e' - E))
    as (mrs' & -> & Hm1); [lia | simpl; lia |].
  cbn [shr_record_of_loc shr_m] in Hm1.
  replace (E + (e' - E)) with e' by lia.
  pose proof (round_nearest_even_bounds (shr_m mrs') (loc_of_shr_record mrs'))
    as Hrn.
  set (m' := round_nearest_even (shr_m mrs') (loc_of_shr_record mrs')) in *.
  pose proof (digits2_pos_bounds P) as [_ HP]. fold d in HP.
  assert (He' : d + E - 53 <= e' /\ -1074 <= e')
    by (unfold e'; rewrite fexp_64; lia).
  assert (Hm1lt : 0 <= shr_m mrs' < 2 ^ 53).
  { rewrite Hm1. split; [apply Z.div_pos; lia|].
    apply Z.div_lt_upper_bound; [lia|].
    rewrite <- Z.pow_add_r by lia.
    assert (2 ^ d <= 2 ^ (e' - E + 53)) by (apply Z.pow_le_mono_r; lia).
    lia. }
  assert (Hcase : m' < 2 ^ 53 \/ m' = 2 ^ 53) by lia.
  assert (Hlow : e' = e0 -> m' <= Z.pos m0).
  { intros Heq. specialize (Hval Heq).
    assert (shr_m mrs' < Z.pos m0); [|lia].
    rewrite Hm1. apply Z.div_lt_upper_bound; [lia|].
    rewrite Heq. lia. }
  destruct Hcase as [Hlt | Heq].
  - (* no second shift *)
    rewrite shr_none.
    2:{ rewrite fexp_64.
        assert (Zdigits2 m' <= 53) by (apply Zdigits2_le; lia). lia. }
    cbn [shr_record_of_loc shr_m].
    destruct m' as [|p|p] eqn:Hm'; [reflexivity | | lia].
    replace (e' <=? emax - prec) with true by (symmetry; apply Z.leb_le; lia).
    cbn [below]. split; [reflexivity|].
    destruct (Z.eq_dec e' e0) as [Heq|Hne]; [right | left; lia].
    split; [exact Heq | apply Hlow, Heq].
  - (* the rounded mantissa is 2^53: one more shift *)
    assert (Hne : e' <> e0).
    { intros Heq'. specialize (Hlow Heq'). lia. }
    rewrite Heq. change (2 ^ 53) with 9007199254740992.
    change (Zdigits2 9007199254740992) with 54. rewrite fexp_64.
    replace (Z.max (54 + e' - 53) (-1074) - e') with 1 by lia.
    cbn [shr shr_record_of_loc iter_pos shr_1 shr_m].
    replace (e' + 1 <=? emax - prec) with true
      by (symmetry; apply Z.leb_le; lia).
    cbn [below]. split; [reflexivity|].
    change (2 ^ 52) with 4503599627370496 in Hm0. lia.
Qed.
Lemma SFmul_degrees_below (sx : bool) (mx : positive) (ex : Z) :
  valid_binary (S754_finite sx mx ex) = true ->
  (ex < -51 \/ (ex = -51 /\ Z.pos mx <= 7074237752028440)) ->
  below sx 6333186975989760 (-45)
    (SFmul prec emax (S754_finite sx mx ex)
       (S754_finite false 8063664102031864 (-47))).
Proof.
  intros Hv Hle. cbn [SFmul]. rewrite xorb_false_r.
  cbn [SpecFloat.valid_binary] in Hv. unfold bounded, canonical_mantissa in Hv.
  apply andb_true_iff in Hv as [Hcan _]. apply Z.eqb_eq in Hcan.
  rewrite fexp_64 in Hcan.
  pose proof (digits2_pos_bounds mx) as [Hxlo Hxhi].
  pose proof (digits2_pos_bounds (mx * 8063664102031864)) as [Hplo Hphi].
  set (dx := Z.pos (digits2_pos mx)) in *.
  set (d := Z.pos (digits2_pos (mx * 8063664102031864))) in *.
  rewrite Pos2Z.inj_mul in Hplo, Hphi.
  assert (Hdx : 0 < dx) by (unfold dx; lia).
  assert (Hd : 0 < d) by (unfold d; lia).
  assert (Hc : 2 ^ 52 <= 8063664102031864 < 2 ^ 53) by (vm_compute; split; [discriminate | reflexivity]).
  assert (Hdhi : d <= dx + 53).
  { assert (H : 2 ^ (d - 1) < 2 ^ (dx + 53)).
    { rewrite Z.pow_add_r by lia.
      assert (0 < 2 ^ dx) by (apply Z.pow_pos_nonneg; lia).
      nia. }
    apply Z.pow_lt_mono_r_iff in H; lia. }
  assert (Hdlo : dx + 52 <= d).
  { assert (H : 2 ^ (dx - 1 + 52) < 2 ^ d).
    { rewrite Z.pow_add_r by lia.
      assert (0 < 2 ^ (dx - 1)) by (apply Z.pow_pos_nonneg; lia).
      nia. }
    apply Z.pow_lt_mono_r_iff in H; lia. }
  apply binary_round_aux_below; fold d; rewrite ?fexp_64.
  - lia.
  - lia.
  - vm_compute. discriminate.
  - vm_compute. split; [discriminate | reflexivity].
  - intros He.
    assert (Hex : ex = -51) by lia.
    destruct Hle as [? | [_ Hmx]]; [lia|].
    rewrite Pos2Z.inj_mul. subst ex.
    change (2 ^ (-45 - (-51 + -47))) with (2 ^ 53).
    apply Z.le_lt_trans with (7074237752028440 * 8063664102031864).
    + apply Z.mul_le_mono_nonneg_r; lia.
    + vm_compute. reflexivity.
Qed.
Lemma compare_cont_spec (p q : positive) :
  CompareSpec (Z.pos p = Z.pos q) (Z.pos p < Z.pos q)%Z (Z.pos q < Z.pos p)%Z
    (Pos.compare_cont Eq p q).
Proof. exact (Z.compare_spec (Z.pos p) (Z.pos q)). Qed.

Lemma is_nan_spec (x : float) :
  is_nan x = match Prim2SF x with S754_nan => true | _ => false end.
Proof.
  unfold is_nan. rewrite eqb_spec. unfold SFeqb.
  destruct (Prim2SF x) as [s | s | | s m e]; cbn [SFcompare negb].
  - reflexivity.
  - destruct s; reflexivity.
  - reflexivity.
  - rewrite Z.compare_refl, Pos.compare_cont_refl. destruct s; reflexivity.
Qed.

End Binary64Rounding.

(* ===================================================================== *)
(** * C3 and C8 on doubles: the reported magnitudes and phases *)

Module Complex128Output.
Import Stdlib.Floats.Floats.
Import Complex128.
Import Complex128Facts.
Import Binary64Rounding.
Local Open Scope float_scope.

(** ** The first and last stage on doubles *)

(** In binary64 the degrees computed from an angle within [-pi, pi] lie
    within [-180, 180]: the product with [180 / pi] rounds [pi] to 180
    exactly and nothing smaller to more. *)
Lemma degrees_in_range (a : float) :
  radians_ok a = true -> phase_ok (a * (180 / pi)) = true.
Proof.
  unfold radians_ok, phase_ok.
  rewrite !is_nan_spec, !leb_spec, mul_spec.
  assert (Hc : Prim2SF (180 / pi) = S754_finite false 8063664102031864 (-47))
    by (vm_compute; reflexivity).
  assert (Hpi : Prim2SF pi = S754_finite false 7074237752028440 (-51))
    by (vm_compute; reflexivity).
  assert (Hmpi : Prim2SF (- pi) = S754_finite true 7074237752028440 (-51))
    by (vm_compute; reflexivity).
  assert (H180 : Prim2SF 180 = S754_finite false 6333186975989760 (-45))
    by (vm_compute; reflexivity).
  assert (Hm180 : Prim2SF (-180) = S754_finite true 6333186975989760 (-45))
    by (vm_compute; reflexivity).
  rewrite Hc, Hpi, Hmpi, H180, Hm180.
  pose proof (Prim2SF_valid a) as Hv.
  destruct (Prim2SF a) as [s | s | | s m e] eqn:Ha.
  - intros _. cbn. destruct s; reflexivity.
  - destruct s; cbn; intros H; discriminate.
  - intros _. reflexivity.
  - intros Hr.
    assert (Hle : (e < -51 \/ (e = -51 /\ Z.pos m <= 7074237752028440))%Z).
    { revert Hr. cbn [orb]. unfold SFleb. cbn [SFcompare].
      destruct s.
      - rewrite andb_true_r.
        destruct (Z.compare_spec (-51) e) as [He | He | He].
        + destruct (compare_cont_spec 7074237752028440 m) as [Hm | Hm | Hm];
            cbn [CompOpp]; intros Hr; try discriminate; right; lia.
        + intros Hr; discriminate.
        + intros _. left. lia.
      - cbn [andb].
        destruct (Z.compare_spec e (-51)) as [He | He | He].
        + destruct (compare_cont_spec m 7074237752028440) as [Hm | Hm | Hm];
            intros Hr; try discriminate; right; lia.
        + intros _. left. lia.
        + intros Hr; discriminate. }
    pose proof (SFmul_degrees_below s m e Hv Hle) as Hb.
    unfold SF64mul.
    destruct (SFmul prec emax (S754_finite s m e)
                (S754_finite false 8063664102031864 (-47)))
      as [s' | s' | | s' m' e']; cbn [below] in Hb; try contradiction.
    + subst s'. destruct s; reflexivity.
    + destruct Hb as [-> Hb]. cbn [orb]. unfold SFleb. cbn [SFcompare].
      destruct s.
      * rewrite andb_true_r.
        destruct (Z.compare_spec (-45) e') as [He | He | He];
          [ | lia | reflexivity].
        destruct Hb as [? | [_ Hm]]; [lia|].
        destruct (compare_cont_spec 6333186975989760 m') as [Hc' | Hc' | Hc'];
          cbn [CompOpp]; first [reflexivity | lia].
      * cbn [andb].
        destruct (Z.compare_spec e' (-45)) as [He | He | He];
          [ | reflexivity | lia].
        destruct Hb as [? | [_ Hm]]; [lia|].
        destruct (compare_cont_spec m' 6333186975989760) as [Hc' | Hc' | Hc'];
          first [reflexivity | lia].
Qed.

Lemma magnitude_ok_abs (x : float) : magnitude_ok (abs x) = true.
Proof.
  unfold magnitude_ok.
  rewrite is_nan_spec, leb_spec, abs_spec.
  change (Prim2SF 0) with (S754_zero false).
  destruct (Prim2SF x) as [s | s | | s m e]; reflexivity.
Qed.

Lemma absolute_in_range (lm : Libm) (z : c128) :
  libm_in_range lm -> magnitude_ok (absolute lm z) = true.
Proof.
  intros [Hh _]. unfold absolute.
  destruct (is_zero (imag z)); [apply magnitude_ok_abs|].
  destruct (is_zero (real z)); [apply magnitude_ok_abs | apply Hh].
Qed.

Lemma radians_ok_zero (y : float) : is_zero y = true -> radians_ok y = true.
Proof.
  intros Hy. destruct (is_zero_Prim2SF y Hy) as [sg Hsg].
  unfold radians_ok. rewrite is_nan_spec, !leb_spec, Hsg.
  assert (Hpi : Prim2SF pi = S754_finite false 7074237752028440 (-51))
    by (vm_compute; reflexivity).
  assert (Hmpi : Prim2SF (- pi) = S754_finite true 7074237752028440 (-51))
    by (vm_compute; reflexivity).
  rewrite Hpi, Hmpi. reflexivity.
Qed.

Lemma arctan2_in_range (lm : Libm) (y x : float) :
  libm_in_range lm -> radians_ok (arctan2 lm y x) = true.
Proof.
  intros [_ Ha]. unfold arctan2.
  destruct (is_zero y) eqn:Hy; cbn [andb]; [|apply Ha].
  destruct (negb (is_nan x)); [|apply Ha].
  destruct (get_sign x); [|apply radians_ok_zero, Hy].
  destruct (get_sign y); vm_compute; reflexivity.
Qed.

Lemma angle_in_range (lm : Libm) (z : c128) :
  libm_in_range lm -> phase_ok (angle lm z) = true.
Proof. intros Hlm. apply degrees_in_range, arctan2_in_range, Hlm. Qed.

(** The row of the sample does not leave the values the C standard
    fixes: whatever the library, the program and the short chain return
    these rows for it. *)
Lemma real_axis_row_output (lm : Libm) :
  process_row lm 0 real_axis_row = Some real_axis_output.
Proof. vm_compute. reflexivity. Qed.




(** The phase -180 is reported: for [real_axis_row] and inductance 0
    every value of the output row is finite, the common-gate S21 is
    negative with imaginary part -0.0, and its phase, -180, is outside
    (-180, 180]; this holds whatever the C library is
    ([real_axis_row_output]). *)
Lemma phase_minus_180_is_reported :
  process_row annex_libm 0 real_axis_row = Some real_axis_output /\
  forallb (fun x => negb (nonfinite x)) real_axis_output = true /\
  real_axis_output !! 4%nat = Some (-180) /\
  phase_half_open (-180) = false.
Proof.
  split; [apply real_axis_row_output|].
  split; [reflexivity|]. split; reflexivity.
Qed.

(** C8: in binary64, with a C library whose [hypot] is not negative and
    whose [atan2] stays within [-pi, pi], every row the program computes
    has nine columns, each of the four magnitudes is not negative (or is
    NaN) and each of the four phases lies in the closed range
    [-180, 180] (or is NaN). *)
Theorem output_magnitudes_and_phases_in_range :
  forall (lm : Libm) (M L : float) (row out : list float),
    libm_in_range lm ->
    calc_row lm M L row = Some out ->
    output_in_range out.
Proof.
  intros lm M L row out Hlm Hout. unfold calc_row in Hout.
  destruct (to_rect lm row) as [[f s]|]; [|discriminate].
  cbn [mbind option_bind] in Hout. injection Hout as <-.
  unfold output_in_range, to_polar_row. do 9 eexists.
  split; [reflexivity|].
  split; (split; [|split; [|split]]).
  1-4: apply absolute_in_range, Hlm.
  all: apply angle_in_range, Hlm.
Qed.

Lemma output_magnitudes_and_phases_in_range_witness :
  libm_in_range annex_libm /\ output_in_range real_axis_output.
Proof.
  assert (H : libm_in_range annex_libm) by (split; intros; reflexivity).
  split; [exact H|].
  apply (output_magnitudes_and_phases_in_range annex_libm 1e6
           (0 * 0x1.12e0be826d695p-30) real_axis_row); [exact H|].
  apply real_axis_row_output.
Defined.
End Complex128Output.

(* ===================================================================== *)
(** * Exchanging the two transmission parameters *)

Section Transposition.

Lemma Cmul_comm (a b : C) : Cmul a b = Cmul b a.
Proof. ring. Qed.

(** After the ports are exchanged the products [s21 * s12] of the
    formulas are the products [s12 * s21] again, and the two sides are
    the same term. *)
Ltac transposed s :=
  apply two_port_eq; cbn [transpose p11 p12 p21 p22]; cnorm;
  rewrite ?(Cmul_comm (p21 s) (p12 s)); first [reflexivity | unfold Cdiv; ring].

Lemma s_to_y_transpose (s : TwoPort C) :
  s_to_y (transpose s) = transpose (s_to_y s).
Proof. unfold s_to_y. transposed s. Qed.

Lemma cs_to_cg_transpose (y : TwoPort C) :
  cs_to_cg (transpose y) = transpose (cs_to_cg y).
Proof. apply two_port_eq; unfold cs_to_cg, transpose; cnorm; ring. Qed.

Lemma y_to_s_transpose (y : TwoPort C) :
  y_to_s (transpose y) = transpose (y_to_s y).
Proof. unfold y_to_s. transposed y. Qed.

Lemma s_to_z_transpose (Z0 : C) (s : TwoPort C) :
  s_to_z Z0 (transpose s) = transpose (s_to_z Z0 s).
Proof. unfold s_to_z. transposed s. Qed.

Lemma add_series_transpose (Zi : C) (z : TwoPort C) :
  add_series Zi (transpose z) = transpose (add_series Zi z).
Proof. reflexivity. Qed.

Lemma normalize_transpose (Z0 : C) (z : TwoPort C) :
  normalize Z0 (transpose z) = transpose (normalize Z0 z).
Proof. reflexivity. Qed.

Lemma z_to_s_transpose (z : TwoPort C) :
  z_to_s (transpose z) = transpose (z_to_s z).
Proof. unfold z_to_s. transposed z. Qed.

Lemma to_rect_swap (f : R) (a b c d : R * R) :
  to_rect (mkRecord f a c b d) = transpose (to_rect (mkRecord f a b c d)).
Proof. reflexivity. Qed.

Lemma pipeline_transpose (Z0 M L f : R) (a b c d : R * R) :
  pipeline Z0 M L (mkRecord f a c b d)
  = transpose (pipeline Z0 M L (mkRecord f a b c d)).
Proof.
  unfold pipeline, cg_impedance_degenerated, cg_impedance,
    cs_to_cg_scattering.
  cbn [frequency].
  rewrite to_rect_swap, s_to_y_transpose, cs_to_cg_transpose,
    y_to_s_transpose, s_to_z_transpose, add_series_transpose,
    normalize_transpose, z_to_s_transpose.
  reflexivity.
Qed.

Lemma to_polar_row_transpose (f : R) (s : TwoPort C) :
  to_polar_row f (transpose s) = swap_transmission (to_polar_row f s).
Proof. reflexivity. Qed.

Lemma calc_row_swap (Z0 M L : R) (row : list R) :
  calc_row Z0 M L (swap_transmission row)
  = swap_transmission <$> calc_row Z0 M L row.
Proof.
  unfold calc_row, record_of_row, swap_transmission.
  destruct row as [|d0 [|d1 [|d2 [|d3 [|d4 [|d5 [|d6 [|d7 [|d8 rest]]]]]]]]];
    try reflexivity.
  cbn [fmap option_fmap option_map]. f_equal.
  unfold calc_record. cbn [frequency].
  rewrite pipeline_transpose. apply to_polar_row_transpose.
Qed.
End Transposition.


(** A reciprocal device stays reciprocal: when S21 and S12 of a row have
    the same magnitude and the same phase, so have S21 and S12 of the
    output row. *)
Theorem reciprocal_rows_stay_reciprocal :
  forall (Z0 M L : R) (row out : list R),
    row !! 3%nat = row !! 5%nat -> row !! 4%nat = row !! 6%nat ->
    calc_row Z0 M L row = Some out ->
    out !! 3%nat = out !! 5%nat /\ out !! 4%nat = out !! 6%nat.
Proof.
  intros Z0 M L row out H35 H46 Hout.
  assert (Hsw : swap_transmission row = row).
  { unfold calc_row, record_of_row in Hout.
    destruct row as [|d0 [|d1 [|d2 [|d3 [|d4 [|d5 [|d6 [|d7 [|d8 rest]]]]]]]]];
      try discriminate.
    cbn in H35, H46. injection H35 as ->. injection H46 as ->. reflexivity. }
  pose proof (calc_row_swap Z0 M L row) as Hs.
  rewrite Hsw, Hout in Hs. cbn in Hs. injection Hs as Hs.
  pose proof (calc_row_length Z0 M L row out Hout) as Hlen.
  destruct out as [|o0 [|o1 [|o2 [|o3 [|o4 [|o5 [|o6 rest]]]]]]];
    try (cbn in Hlen; discriminate).
  cbn in Hs. injection Hs as H1 H2 H3 H4. cbn. split; congruence.
Qed.

(* ===================================================================== *)
(** * Round trips in the other direction, and how injections compose *)

Section InverseConverters.




Lemma denormalize (Z0 : C) (z : TwoPort C) :
  Z0 <> RtoC 0 ->
  normalize Z0 (mkTwoPort (Cmul Z0 (p11 z)) (Cmul Z0 (p12 z))
                          (Cmul Z0 (p21 z)) (Cmul Z0 (p22 z))) = z.
Proof.
  intros HZ. apply two_port_eq; unfold normalize; cnorm; field; exact HZ.
Qed.
End InverseConverters.




(* ===================================================================== *)
(** * The series inductor: successive injections and what the result
      depends on *)

Section Injection.






End Injection.


Section InjectionWitness.
End InjectionWitness.


(* ===================================================================== *)
(** * What the result depends on *)

Section Scaling.



End Scaling.



(* ===================================================================== *)
(** * The output stage inverts the input stage *)

Section PolarRoundTrip.
Local Open Scope R_scope.





End PolarRoundTrip.



(* ===================================================================== *)
(** * The parser and the core together *)

Section ParserShape.
Context {A : Type} (float : string -> option A).

Lemma Kept_widths (col : nat) (lines : list string) (rows : list (list A)) :
  Kept float col lines rows ->
  Forall (fun row => length row = col) rows /\
  (length rows <= length lines)%nat.
Proof.
  induction 1 as [|line f lines rows Hp HK [IHw IHl]
                  |line lines rows Hn HK [IHw IHl]].
  - split; [constructor | reflexivity].
  - split; [constructor; [apply Hp | exact IHw] | simpl; lia].
  - split; [exact IHw | simpl; lia].
Qed.

Lemma parseSparamFile_app (col : nat) (l1 l2 : list string) :
  parseSparamFile float col (l1 ++ l2)
  = parseSparamFile float col l1 ++ parseSparamFile float col l2.
Proof.
  unfold parseSparamFile. rewrite foldl_app.
  apply foldl_parse_step_app.
Qed.
End ParserShape.

Lemma calc_row_full (Z0 M L : R) (row : list R) :
  (9 <= length row)%nat -> is_Some (calc_row Z0 M L row).
Proof.
  intros Hlen. unfold calc_row, record_of_row.
  destruct row as [|d0 [|d1 [|d2 [|d3 [|d4 [|d5 [|d6 [|d7 [|d8 rest]]]]]]]]];
    simpl in Hlen; try lia.
  eexists; reflexivity.
Qed.

Lemma calc_row_short (Z0 M L : R) (row : list R) :
  (length row < 9)%nat -> calc_row Z0 M L row = None.
Proof.
  intros Hlen. unfold calc_row, record_of_row.
  destruct row as [|d0 [|d1 [|d2 [|d3 [|d4 [|d5 [|d6 [|d7 [|d8 rest]]]]]]]]];
    simpl in Hlen; try lia; reflexivity.
Qed.

Lemma mapM_calc_row_Some (Z0 M L : R) (data : list (list R)) :
  Forall (fun row => (9 <= length row)%nat) data ->
  is_Some (mapM (calc_row Z0 M L) data).
Proof.
  induction 1 as [|row data Hrow _ [outs IH]]; [eexists; reflexivity|].
  destruct (calc_row_full Z0 M L row Hrow) as [o Ho].
  exists (o :: outs). cbn [mapM]. rewrite Ho, IH. reflexivity.
Qed.

Lemma process_file_Some (float : string -> option R) (lines : list string)
    (inductance : R) :
    exists out : list (list R),
      process_file float lines inductance = Some out /\
      length out = length (parseSparamFile float 9 lines) /\
      (length out <= length lines)%nat /\
      Forall (fun row => length row = 9%nat) out.
Proof.
  destruct (Kept_widths float 9 lines _ (parseSparamFile_Kept float 9 lines))
    as [Hw Hl].
  rewrite process_file_rows.
  destruct (mapM_calc_row_Some 50 1e6 (inductance * 1e-9)
              (parseSparamFile float 9 lines)) as [out Hout].
  { eapply Forall_impl; [exact Hw|]. intros row ->. reflexivity. }
  exists out. split; [exact Hout|].
  apply mapM_Some in Hout.
  pose proof (Forall2_length _ _ _ Hout) as Hlen.
  repeat split.
  - symmetry. exact Hlen.
  - lia.
  - clear Hlen Hl Hw.
    induction Hout as [|row o rows outs Hrow _ IH]; constructor; [|exact IH].
    eapply calc_row_length, Hrow.
Qed.

(** Whatever the file holds, the numeric core does not fail on what the
    parser hands over: [process_file] returns an array, with one row of
    nine columns for each row the parser kept. *)
Theorem process_file_never_fails :
  forall (float : string -> option R) (lines : list string) (inductance : R),
    exists out : list (list R),
      process_file float lines inductance = Some out /\
      length out = length (parseSparamFile float 9 lines) /\
      (length out <= length lines)%nat /\
      Forall (fun row => length row = 9%nat) out.
Proof. intros float lines inductance. apply process_file_Some. Qed.

(** A file made of two parts gives the rows of the first part followed by
    the rows of the second: the parser and [process_file] treat each line
    on its own. *)
Theorem process_file_concatenation :
  forall (float : string -> option R) (l1 l2 : list string) (inductance : R),
    parseSparamFile float 9 (l1 ++ l2)
    = parseSparamFile float 9 l1 ++ parseSparamFile float 9 l2 /\
    exists out1 out2 : list (list R),
      process_file float l1 inductance = Some out1 /\
      process_file float l2 inductance = Some out2 /\
      process_file float (l1 ++ l2) inductance = Some (out1 ++ out2).
Proof.
  intros float l1 l2 inductance.
  split; [apply parseSparamFile_app|].
  destruct (process_file_Some float l1 inductance) as (o1 & H1 & _).
  destruct (process_file_Some float l2 inductance) as (o2 & H2 & _).
  exists o1, o2. repeat split; try assumption.
  rewrite process_file_rows in *. rewrite parseSparamFile_app.
  apply mapM_Some. apply mapM_Some in H1, H2.
  apply Forall2_app; assumption.
Qed.

(* ===================================================================== *)
(** * Rows that are too short, rows that are too wide, and [col] *)

Section RowWidths.
Variables (Z0 M L : R).

Lemma mapM_calc_row_None (data : list (list R)) :
  mapM (calc_row Z0 M L) data = None <->
  Exists (fun row => (length row < 9)%nat) data.
Proof.
  split.
  - intros Hnone.
    destruct (decide (Forall (fun row => (9 <= length row)%nat) data))
      as [Hall | Hnot].
    + destruct (mapM_calc_row_Some Z0 M L data Hall) as [o Ho]. congruence.
    + apply not_Forall_Exists in Hnot; [|intros row; apply _].
      eapply Exists_impl; [exact Hnot|]. intros row Hrow. simpl in Hrow. lia.
  - intros Hex. destruct (mapM (calc_row Z0 M L) data) as [out|] eqn:Hm;
      [|reflexivity].
    exfalso. apply mapM_Some in Hm. apply Exists_exists in Hex as (row & Hin & Hlen).
    apply list_elem_of_lookup in Hin as [i Hi].
    destruct (Forall2_lookup_l _ _ _ _ _ Hm Hi) as (o & _ & Ho).
    rewrite calc_row_short in Ho by exact Hlen. discriminate.
Qed.

Lemma calc_row_take (row : list R) :
  calc_row Z0 M L (take 9 row) = calc_row Z0 M L row.
Proof.
  unfold calc_row, record_of_row.
  destruct row as [|d0 [|d1 [|d2 [|d3 [|d4 [|d5 [|d6 [|d7 [|d8 rest]]]]]]]]];
    reflexivity.
Qed.

(** The body of the loop over an output row of any width [col]: with
    fewer than nine columns a write is out of range; with nine or more
    the columns after the ninth keep their zeros. *)
Lemma loop_body_row_col (col : nat) (data s : list (list R)) (i : nat)
    (row : list R) :
  data !! i = Some row ->
  s !! i = Some (replicate col 0%R) ->
  loop_body Z0 M L data i s
  = if decide (9 <= col)%nat then
      out ← calc_row Z0 M L row;
      Some (<[i := out ++ replicate (col - 9) 0%R]> s)
    else None.
Proof.
  intros Hd Hs.
  assert (Hi : (i < length s)%nat) by (eapply lookup_lt_Some; eassumption).
  unfold loop_body, get2. rewrite Hd.
  destruct row as [|d0 [|d1 [|d2 [|d3 [|d4 [|d5 [|d6 [|d7 [|d8 rest]]]]]]]]];
    try (destruct (decide (9 <= col)%nat); reflexivity).
  cbn [mbind option_bind lookup list_lookup].
  destruct (decide (9 <= col)%nat) as [Hcol | Hcol].
  - replace col with (9 + (col - 9))%nat in Hs by lia.
    rewrite replicate_add in Hs. cbn [replicate app] in Hs.
    rewrite (set2_lookup s i 0 _ _ Hs) by (simpl; lia).
    cbn [mbind option_bind].
    repeat (rewrite set2_insert by (simpl; lia); cbn [mbind option_bind]).
    reflexivity.
  - destruct col as [|[|[|[|[|[|[|[|[|col]]]]]]]]]; try lia;
      cbn [replicate] in Hs;
      repeat first
        [ rewrite (set2_lookup s i _ _ _ Hs) by (simpl; lia);
          cbn [mbind option_bind]
        | rewrite set2_insert by (simpl; lia); cbn [mbind option_bind] ];
      unfold set2;
      rewrite ?Hs, ?list_lookup_insert_eq by exact Hi;
      cbn [mbind option_bind length list_insert];
      rewrite decide_False by (simpl; lia); reflexivity.
Qed.

Lemma for_each_rows_col (col : nat) (rest done : list (list R))
    (outs : list (list R)) :
  (9 <= col)%nat -> length outs = length done ->
  for_each (loop_body Z0 M L (done ++ rest))
    (seq (length done) (length rest))
    (outs ++ replicate (length rest) (replicate col 0%R))
  = (fun o => outs ++ o)
      <$> mapM (fun row => (fun o => o ++ replicate (col - 9) 0%R)
                             <$> calc_row Z0 M L row) rest.
Proof.
  intros Hcol. revert done outs.
  induction rest as [|row rest IH]; intros done outs Hlen.
  - simpl. rewrite !app_nil_r. reflexivity.
  - cbn [length seq for_each replicate].
    rewrite (loop_body_row_col col _ _ _ row).
    + rewrite decide_True by exact Hcol.
      cbn [mapM]. destruct (calc_row Z0 M L row) as [out|]; [|reflexivity].
      cbn [mbind option_bind fmap option_fmap option_map].
      replace (<[length done := out ++ replicate (col - 9) 0%R]>
                 (outs ++ replicate col 0%R
                         :: replicate (length rest) (replicate col 0%R)))
        with ((outs ++ [out ++ replicate (col - 9) 0%R])
                ++ replicate (length rest) (replicate col 0%R)).
      * replace (done ++ row :: rest) with ((done ++ [row]) ++ rest)
          by (rewrite <- app_assoc; reflexivity).
        replace (S (length done)) with (length (done ++ [row]))
          by (rewrite length_app; simpl; lia).
        rewrite IH by (rewrite !length_app; simpl; lia).
        destruct (mapM _ rest) as [outs'|]; simpl;
          [rewrite <- app_assoc; reflexivity | reflexivity].
      * rewrite <- Hlen, insert_app_r_alt by lia.
        rewrite Nat.sub_diag, <- app_assoc. reflexivity.
    + apply list_lookup_middle. reflexivity.
    + apply list_lookup_middle. symmetry; assumption.
Qed.

Lemma calcCommGateParam_wide (col : nat) (data : list (list R)) :
  (9 <= col)%nat ->
  calcCommGateParam Z0 M L col data
  = mapM (fun row => (fun o => o ++ replicate (col - 9) 0%R)
                       <$> calc_row Z0 M L row) data.
Proof.
  intros Hcol. unfold calcCommGateParam, np_zeros.
  pose proof (for_each_rows_col col data [] [] Hcol eq_refl) as H.
  cbn [app length] in H. cbv zeta. rewrite H.
  destruct (mapM _ data); reflexivity.
Qed.

Lemma calcCommGateParam_narrow (col : nat) (data : list (list R)) :
  (col < 9)%nat -> data <> [] -> calcCommGateParam Z0 M L col data = None.
Proof.
  intros Hcol Hne. destruct data as [|row data]; [contradiction|].
  unfold calcCommGateParam, np_zeros. cbv zeta.
  cbn [length seq for_each replicate].
  rewrite (loop_body_row_col col _ _ 0 row) by reflexivity.
  rewrite decide_False by lia. reflexivity.
Qed.
End RowWidths.

(** The width of the input rows: [calcCommGateParam] with nine output
    columns raises (an index is out of range) exactly when some input row
    has fewer than nine columns, and columns after the ninth are never
    read: the result is that for the rows cut to nine columns. *)
Theorem calcCommGateParam_input_width :
  forall (Z0 M L : R) (data : list (list R)),
    (calcCommGateParam Z0 M L 9 data = None <->
     Exists (fun row => (length row < 9)%nat) data) /\
    calcCommGateParam Z0 M L 9 (take 9 <$> data)
    = calcCommGateParam Z0 M L 9 data.
Proof.
  intros Z0 M L data. rewrite !calcCommGateParam_mapM. split.
  - apply mapM_calc_row_None.
  - induction data as [|row data IH]; [reflexivity|].
    cbn [fmap list_fmap mapM]. rewrite IH, calc_row_take. reflexivity.
Qed.

Lemma calcCommGateParam_padded (Z0 M L : R) (col : nat)
    (data : list (list R)) :
  (9 <= col)%nat ->
  calcCommGateParam Z0 M L col data
  = fmap (M := list) (fun o => o ++ replicate (col - 9) 0%R)
      <$> calcCommGateParam Z0 M L 9 data.
Proof.
  intros Hcol. rewrite calcCommGateParam_wide by exact Hcol.
  rewrite calcCommGateParam_mapM.
  induction data as [|row data IH]; [reflexivity|].
  cbn [mapM]. rewrite IH.
  destruct (calc_row Z0 M L row) as [o|]; [|reflexivity].
  cbn [fmap option_fmap option_map mbind option_bind].
  destruct (mapM (calc_row Z0 M L) data) as [os|]; reflexivity.
Qed.

Lemma mapM_calc_row_widths (Z0 M L : R) (data out : list (list R)) :
  mapM (calc_row Z0 M L) data = Some out ->
  Forall (fun o => length o = 9%nat) out.
Proof.
  intros H. apply mapM_Some in H.
  induction H as [|row o data out Hrow _ IH]; constructor; [|exact IH].
  eapply calc_row_length, Hrow.
Qed.

(** The parameter [col], for input rows of at least nine columns: the
    call with [col = 9] returns a table with one row per input row; the
    call with any [col] returns exactly when [col] is at least 9 or
    there is no row (with fewer output columns the first write falls out
    of range), and what it returns is the table for [col = 9] with every
    row padded by zeros to [col] columns. *)
Theorem calcCommGateParam_output_width :
  forall (Z0 M L : R) (col : nat) (data : list (list R)),
    Forall (fun row => (9 <= length row)%nat) data ->
    exists out9 : list (list R),
      calcCommGateParam Z0 M L 9 data = Some out9 /\
      length out9 = length data /\
      (is_Some (calcCommGateParam Z0 M L col data)
       <-> (9 <= col)%nat \/ data = []) /\
      (forall out, calcCommGateParam Z0 M L col data = Some out ->
         out = (fun o => o ++ replicate (col - 9) 0%R) <$> out9 /\
         Forall (fun o => length o = col) out).
Proof.
  intros Z0 M L col data Hrows.
  destruct (mapM_calc_row_Some Z0 M L data Hrows) as [out9 H9].
  pose proof (mapM_calc_row_widths Z0 M L data out9 H9) as Hw.
  exists out9. rewrite calcCommGateParam_mapM.
  split; [exact H9|].
  split; [symmetry; eapply Forall2_length; apply mapM_Some; exact H9|].
  destruct (le_lt_dec 9 col) as [Hcol | Hcol].
  - rewrite calcCommGateParam_padded, calcCommGateParam_mapM, H9
      by exact Hcol.
    cbn [fmap option_fmap option_map]. split.
    + split; [intros _; left; exact Hcol | intros _; eexists; reflexivity].
    + intros out [= <-]. split; [reflexivity|].
      apply Forall_fmap. eapply Forall_impl; [exact Hw|].
      intros o Ho. cbn. rewrite length_app, length_replicate, Ho. lia.
  - destruct data as [|row data].
    + injection H9 as <-. split.
      * split; [intros _; right; reflexivity | intros _; eexists; reflexivity].
      * intros out [= <-]. split; [reflexivity | constructor].
    + rewrite calcCommGateParam_narrow by (lia || discriminate). split.
      * split; [intros [? [=]] | intros [? | [=]]; lia].
      * intros out [=].
Qed.

(* ===================================================================== *)
(** * Line endings and trailing blanks *)

Section TrailingSpace.
Context {A : Type} (float : string -> option A).

Lemma split_from_spaces (cur ws : string) :
  all_space ws = true ->
  split_from cur ws = if String.eqb cur "" then [] else [cur].
Proof.
  revert cur. induction ws as [|c ws IH]; intros cur Hws; [reflexivity|].
  cbn [all_space] in Hws. apply andb_prop in Hws as [Hc Hws].
  cbn [split_from]. rewrite Hc.
  destruct (String.eqb cur "") eqn:Hcur.
  - rewrite (IH EmptyString Hws). reflexivity.
  - rewrite (IH EmptyString Hws). reflexivity.
Qed.

Lemma split_from_app_spaces (line ws cur : string) :
  all_space ws = true ->
  split_from cur (line ++ ws) = split_from cur line.
Proof.
  intros Hws. revert cur.
  induction line as [|c line IH]; intros cur.
  - cbn [String.append]. rewrite (split_from_spaces cur ws Hws). reflexivity.
  - cbn [String.append split_from]. rewrite !IH. reflexivity.
Qed.

Lemma startswith_app_spaces (c : ascii) (line ws : string) :
  isspace c = false -> all_space ws = true ->
  startswith c (line ++ ws) = startswith c line.
Proof.
  intros Hc Hws. destruct line as [|c' line]; [|reflexivity].
  cbn [String.append]. destruct ws as [|w ws]; [reflexivity|].
  cbn [all_space] in Hws. apply andb_prop in Hws as [Hw _].
  cbn [startswith]. destruct (Ascii.eqb_spec w c) as [-> | Hne];
    [congruence | reflexivity].
Qed.

Lemma parse_step_app_spaces (col : nat) (data : list (list A))
    (line ws : string) :
  all_space ws = true ->
  parse_step float col data (line ++ ws)%string
  = parse_step float col data line.
Proof.
  intros Hws. unfold parse_step, split.
  rewrite !startswith_app_spaces by (assumption || reflexivity).
  rewrite split_from_app_spaces by exact Hws. reflexivity.
Qed.

Lemma foldl_parse_step_spaces (col : nat) (lines lines' : list string)
    (data : list (list A)) :
  Forall2 (fun line line' =>
             exists ws, all_space ws = true /\ line' = (line ++ ws)%string)
          lines lines' ->
  foldl (parse_step float col) data lines'
  = foldl (parse_step float col) data lines.
Proof.
  intros HF. revert data.
  induction HF as [|line line' lines lines' (ws & Hws & ->) _ IH];
    intros data; [reflexivity|].
  cbn [foldl]. rewrite parse_step_app_spaces by exact Hws. apply IH.
Qed.
End TrailingSpace.

(** Blanks, tabs and line terminators at the end of a line do not matter:
    two files whose lines differ only by such endings give the same
    rows. *)
Theorem parser_ignores_line_endings :
  forall (A : Type) (float : string -> option A) (col : nat)
         (lines lines' : list string),
    Forall2 (fun line line' =>
               exists ws, all_space ws = true /\ line' = (line ++ ws)%string)
            lines lines' ->
    parseSparamFile float col lines' = parseSparamFile float col lines.
Proof.
  intros A float col lines lines' HF.
  apply foldl_parse_step_spaces, HF.
Qed.

Lemma parser_ignores_line_endings_witness :
  parseSparamFile int_float 3
    [ "1 2 3" ++ String "013" (String "010" ""); "! x" ++ String "010" "" ]%string
  = parseSparamFile int_float 3 [ "1 2 3"; "! x" ]%string.
Proof.
  apply (parser_ignores_line_endings R int_float 3
           [ "1 2 3"; "! x" ]%string).
  repeat constructor.
  - exists (String "013" (String "010" "")). split; reflexivity.
  - exists (String "010" ""). split; reflexivity.
Defined.

(* ===================================================================== *)
(** * The front end *)

Section FrontEnd.
Variable pf : Platform.

Lemma process_file_dialogs_cases (input_file : string) (inductance : R)
    (output_file : string) :
  (exists e, open_lines pf input_file = inl e /\
     process_file_dialogs pf input_file inductance output_file
     = [ShowError "Error" ("An error occurred: " ++ e)]) \/
  (exists lines s e,
     open_lines pf input_file = inr lines /\
     process_file (float_of_str pf) lines inductance = Some s /\
     savetxt_error pf output_file = Some e /\
     process_file_dialogs pf input_file inductance output_file
     = [ShowError "Error" ("An error occurred: " ++ e)]) \/
  (exists lines s,
     open_lines pf input_file = inr lines /\
     process_file (float_of_str pf) lines inductance = Some s /\
     savetxt_error pf output_file = None /\
     process_file_dialogs pf input_file inductance output_file
     = [ SaveTxt output_file s;
         ShowInfo "Success"
           ("File processed and saved as '" ++ output_file ++ "'") ]).
Proof.
  unfold process_file_dialogs.
  destruct (open_lines pf input_file) as [e | lines] eqn:Hopen.
  - left. exists e. split; reflexivity.
  - destruct (process_file_Some (float_of_str pf) lines inductance)
      as (s & Hs & _).
    rewrite Hs.
    destruct (savetxt_error pf output_file) as [e|] eqn:Hsave.
    + right; left. exists lines, s, e.
      repeat split; first [reflexivity | assumption].
    + right; right. exists lines, s.
      repeat split; first [reflexivity | assumption].
Qed.
End FrontEnd.

(** A click on "Process" writes the output exactly when the input path
    and the output name are not empty, the inductance text converts, the
    input file can be read and the output can be written; what is
    written, under the output name, is the array [process_file] computes
    from the lines of the input file. *)
Theorem click_saves_iff_all_valid :
  forall (pf : Platform) (w : Entries) (path : string) (s : list (list R)),
    SaveTxt path s ∈ process_button_click pf w <->
    file_entry w <> ""%string /\ output_entry w <> ""%string /\
    path = output_entry w /\
    exists (v : R) (lines : list string),
      float_of_str pf (inductance_entry w) = Some v /\
      open_lines pf (file_entry w) = inr lines /\
      savetxt_error pf (output_entry w) = None /\
      process_file (float_of_str pf) lines v = Some s.
Proof.
  intros pf w path s. unfold process_button_click. cbv zeta.
  destruct (String.eqb_spec (file_entry w) "") as [Hin | Hin].
  { split.
    - intros H. apply list_elem_of_singleton in H. discriminate.
    - intros (Hne & _). contradiction. }
  destruct (String.eqb_spec (output_entry w) "") as [Hout | Hout].
  { split.
    - intros H. apply list_elem_of_singleton in H. discriminate.
    - intros (_ & Hne & _). contradiction. }
  destruct (float_of_str pf (inductance_entry w)) as [v|] eqn:Hv.
  2:{ split.
      - intros H. apply list_elem_of_singleton in H. discriminate.
      - intros (_ & _ & _ & v & lines & Hv' & _). discriminate. }
  destruct (process_file_dialogs_cases pf (file_entry w) v (output_entry w))
    as [(e & Hopen & ->) | [(lines & s' & e & Hopen & Hs & Hsave & ->)
                           | (lines & s' & Hopen & Hs & Hsave & ->)]].
  - split.
    + intros H. apply list_elem_of_singleton in H. discriminate.
    + intros (_ & _ & _ & v' & lines & _ & Hopen' & _). congruence.
  - split.
    + intros H. apply list_elem_of_singleton in H. discriminate.
    + intros (_ & _ & _ & v' & lines' & _ & _ & Hsave' & _). congruence.
  - split.
    + intros H. apply elem_of_cons in H as [H | H].
      * injection H as -> ->. repeat split; try assumption.
        exists v, lines. repeat split; assumption.
      * apply list_elem_of_singleton in H. discriminate.
    + intros (_ & _ & -> & v' & lines' & Hv' & Hopen' & _ & Hs').
      injection Hv' as <-. rewrite Hopen in Hopen'. injection Hopen' as <-.
      rewrite Hs in Hs'. injection Hs' as <-. left.
Qed.

(** Every click ends in exactly one dialog and writes at most once, and
    the error dialog is never caused by the numeric core: its message is
    one of the three validation messages or the text of an exception of
    reading the input or of writing the output. *)
Theorem click_shows_one_dialog :
  forall (pf : Platform) (w : Entries),
    let events := process_button_click pf w in
    length (filter (fun e => is_dialog e = true) events) = 1%nat /\
    (length (filter (fun e => is_save e = true) events) <= 1)%nat /\
    forall title message : string,
      ShowError title message ∈ events ->
      message = "Please select an input file."%string \/
      message = "Please enter an output file name."%string \/
      message = "Please enter a valid inductance value."%string \/
      exists e : string,
        message = ("An error occurred: " ++ e)%string /\
        (open_lines pf (file_entry w) = inl e \/
         savetxt_error pf (output_entry w) = Some e).
Proof.
  intros pf w events. subst events. unfold process_button_click. cbv zeta.
  destruct (String.eqb (file_entry w) "").
  { split; [vm_compute; lia|]; split; [vm_compute; lia|].
    intros t m H. apply list_elem_of_singleton in H. injection H as _ ->. auto. }
  destruct (String.eqb (output_entry w) "").
  { split; [vm_compute; lia|]; split; [vm_compute; lia|].
    intros t m H. apply list_elem_of_singleton in H. injection H as _ ->. auto. }
  destruct (float_of_str pf (inductance_entry w)) as [v|].
  2:{ split; [vm_compute; lia|]; split; [vm_compute; lia|].
      intros t m H. apply list_elem_of_singleton in H. injection H as _ ->.
      auto. }
  destruct (process_file_dialogs_cases pf (file_entry w) v (output_entry w))
    as [(e & Hopen & ->) | [(lines & s' & e & Hopen & Hs & Hsave & ->)
                           | (lines & s' & Hopen & Hs & Hsave & ->)]].
  - split; [vm_compute; lia|]; split; [vm_compute; lia|].
    intros t m H. apply list_elem_of_singleton in H. injection H as _ ->.
    right; right; right. exists e. auto.
  - split; [vm_compute; lia|]; split; [vm_compute; lia|].
    intros t m H. apply list_elem_of_singleton in H. injection H as _ ->.
    right; right; right. exists e. auto.
  - split; [vm_compute; lia|]; split; [vm_compute; lia|].
    intros t m H. apply elem_of_cons in H as [H | H]; [discriminate|].
    apply list_elem_of_singleton in H. discriminate.
Qed.

(** Choosing a file and clicking: once [select_file] has been given a
    path that is not empty, no click on Process File reports a missing
    input file, whatever the platform and the other two entries hold;
    after a cancelled file dialog (the empty path) a click does what it
    did before. *)
Theorem click_after_select_file :
  forall (pf : Platform) (w : Entries) (file_path : string),
    (file_path <> ""%string ->
       ShowError "Error" "Please select an input file."
         ∉ process_button_click pf (select_file file_path w)) /\
    process_button_click pf (select_file "" w) = process_button_click pf w.
Proof.
  intros pf w file_path. split; [|reflexivity].
  intros Hne. unfold select_file.
  destruct (String.eqb_spec file_path "") as [? | _]; [contradiction|].
  unfold process_button_click. cbv zeta.
  cbn [file_entry inductance_entry output_entry].
  destruct (String.eqb_spec file_path "") as [? | _]; [contradiction|].
  destruct (String.eqb (output_entry w) "").
  { intros H. apply list_elem_of_singleton in H. discriminate. }
  destruct (float_of_str pf (inductance_entry w)) as [v|].
  2:{ intros H. apply list_elem_of_singleton in H. discriminate. }
  destruct (process_file_dialogs_cases pf file_path v (output_entry w))
    as [(e & Hopen & ->) | [(lines & s' & e & Hopen & Hs & Hsave & ->)
                           | (lines & s' & Hopen & Hs & Hsave & ->)]];
    intros H.
  - apply list_elem_of_singleton in H. discriminate.
  - apply list_elem_of_singleton in H. discriminate.
  - apply elem_of_cons in H as [H | H]; [discriminate|].
    apply list_elem_of_singleton in H. discriminate.
Qed.

(* ===================================================================== *)
(** * Concrete runs *)

Lemma reciprocal_rows_stay_reciprocal_witness :
  calc_record 50 1e6 0 matched_record !! 3%nat
    = calc_record 50 1e6 0 matched_record !! 5%nat /\
  calc_record 50 1e6 0 matched_record !! 4%nat
    = calc_record 50 1e6 0 matched_record !! 6%nat.
Proof.
  apply (reciprocal_rows_stay_reciprocal 50 1e6 0
           [1000000000; 0; 0; 0; 0; 0; 0; 0; 0]%R
           (calc_record 50 1e6 0 matched_record));
    reflexivity.
Defined.

Lemma calcCommGateParam_output_width_witness :
  is_Some (calcCommGateParam 50 1e6 0 11 [row_of_record matched_record]) /\
  ~ is_Some (calcCommGateParam 50 1e6 0 3 [row_of_record matched_record]) /\
  (forall out,
     calcCommGateParam 50 1e6 0 11 [row_of_record matched_record] = Some out ->
     Forall (fun o => length o = 11%nat) out).
Proof.
  assert (Hrows : Forall (fun row : list R => (9 <= length row)%nat)
                    [row_of_record matched_record])
    by (apply Forall_cons; split; [simpl; lia | apply Forall_nil_2]).
  destruct (calcCommGateParam_output_width 50 1e6 0 11 _ Hrows)
    as (out9 & _ & _ & Hiff & Hpad).
  destruct (calcCommGateParam_output_width 50 1e6 0 3 _ Hrows)
    as (_ & _ & _ & Hiff3 & _).
  split; [apply Hiff; left; lia|].
  split.
  - intros H. apply Hiff3 in H as [H | H]; [lia | discriminate].
  - intros out Hout. apply (Hpad out Hout).
Defined.

Lemma click_after_select_file_witness :
  ShowError "Error" "Please select an input file."
    ∉ process_button_click sample_platform
        (select_file "cs.s2p" sample_entries).
Proof.
  apply (proj1 (click_after_select_file sample_platform sample_entries
                  "cs.s2p")).
  discriminate.
Defined.

(** With the entries empty but for the inductance, the click asks for an
    input file; after the file is chosen it reads it, and the result is
    written under the output name. *)
Example click_before_and_after_select :
  process_button_click sample_platform sample_entries
    = [ShowError "Error" "Please select an input file."] /\
  exists s,
    process_button_click sample_platform (select_file "cs.s2p" sample_entries)
    = [ SaveTxt "cg.txt" s;
        ShowInfo "Success" "File processed and saved as 'cg.txt'" ].
Proof.
  split; [reflexivity|].
  destruct (process_file_Some int_float matched_file 3) as (s & Hs & _).
  exists s. unfold process_button_click, select_file, process_file_dialogs.
  cbn [String.eqb file_entry inductance_entry output_entry sample_entries
       sample_platform float_of_str open_lines savetxt_error Ascii.eqb
       Bool.eqb].
  change (int_float "3") with (Some 3%R).
  cbv zeta. cbv iota. rewrite Hs. reflexivity.
Qed.

(* ===================================================================== *)
(** * Zero determinants in the other conversions (binary64) *)

Module Complex128Singular.
Import Stdlib.Floats.Floats.
Import Complex128.
Local Open Scope float_scope.

(** Every quotient by [d] in the four entries is replaced by its two
    non-finite components. *)
Ltac quotients_by d Hz :=
  unfold all_nonfinite; cbn [p11 p12 p21 p22 ndiv ops];
  repeat match goal with
  | |- context [div ?a d] =>
      let H1 := fresh "H" in let H2 := fresh "H" in
      destruct (Complex128Facts.nonfinite_div_zero a d Hz) as [H1 H2];
      rewrite H1, H2; clear H1 H2
  end;
  reflexivity.

(** In binary64 arithmetic each of the three later conversions, and the
    normalisation by a zero [Z0], returns only infinite or NaN components
    when its divisor is zero: Admittance->Scattering (lines 67-71),
    Scattering->Impedance (73-77), the normalisation (85-88) and
    Impedance->Scattering (90-94). *)
Theorem later_zero_determinants_give_nonfinite :
  forall (Z0 : c128) (m : TwoPort c128),
    (is_zero_c (del2 m) = true -> all_nonfinite (y_to_s m) = true) /\
    (is_zero_c (del5 m) = true -> all_nonfinite (s_to_z Z0 m) = true) /\
    (is_zero_c Z0 = true -> all_nonfinite (normalize Z0 m) = true) /\
    (is_zero_c (del4 m) = true -> all_nonfinite (z_to_s m) = true).
Proof.
  intros Z0 m. repeat split; intros Hz.
  - unfold y_to_s. cbv zeta. fold (del2 m). quotients_by (del2 m) Hz.
  - unfold s_to_z. cbv zeta. fold (del5 m). quotients_by (del5 m) Hz.
  - unfold normalize. quotients_by Z0 Hz.
  - unfold z_to_s. cbv zeta. fold (del4 m). quotients_by (del4 m) Hz.
Qed.

Lemma later_zero_determinants_give_nonfinite_witness :
  all_nonfinite (y_to_s singular_sample) = true /\
  all_nonfinite (s_to_z (of_Z 50) (neg_ports singular_sample)) = true /\
  all_nonfinite (normalize (of_Z 0) singular_sample) = true /\
  all_nonfinite (z_to_s singular_sample) = true.
Proof.
  pose proof (later_zero_determinants_give_nonfinite (of_Z 50)
                singular_sample) as (H2 & _ & _ & H4).
  pose proof (later_zero_determinants_give_nonfinite (of_Z 50)
                (neg_ports singular_sample)) as (_ & H5 & _).
  pose proof (later_zero_determinants_give_nonfinite (of_Z 0)
                singular_sample) as (_ & _ & H0 & _).
  split; [|split; [|split]].
  - apply H2. vm_compute; reflexivity.
  - apply H5. vm_compute; reflexivity.
  - apply H0. vm_compute; reflexivity.
  - apply H4. vm_compute; reflexivity.
Defined.
End Complex128Singular.
